(** * Field extraction of the tour request processor

    A shallow embedding of [TourProcessor.extract_data] (src/main.py,
    lines 69-132) together with the Python string and dictionary
    operations it calls, followed by the properties of the extraction. *)

From Stdlib Require Import String Ascii NArith List Bool Lia DecimalString.
From stdpp Require Import base option list gmap.

(** ** Python values *)

(** A Python [str] is a sequence of Unicode code points; a code point is
    a number.  Dictionaries from [str] to [str] are finite maps. *)
Abbreviation str := (list N).
Abbreviation dict := (gmap (list N) (list N)).

Module Py.

(** String literals of the source, read as code point sequences. *)
Definition lit (s : string) : str :=
  map N_of_ascii (list_ascii_of_string s).

Arguments lit s%_string.

(** The three ways a run of the embedded code can end: a value, a raised
    exception, or a loop that used up its fuel. *)
Inductive exn : Type :=
| KeyError (k : str)
| IndexError
| ValueError.

Inductive outcome (A : Type) : Type :=
| Ok (a : A)
| Raise (e : exn)
| Diverge.

Arguments Ok {A} a.
Arguments Raise {A} e.
Arguments Diverge {A}.

Definition bind {A B : Type} (m : outcome A) (k : A -> outcome B) : outcome B :=
  match m with
  | Ok a => k a
  | Raise e => Raise e
  | Diverge => Diverge
  end.

(** [str.isspace] on one code point: the characters [str.strip()] removes. *)
Definition isspace (c : N) : bool :=
  ((9 <=? c) && (c <=? 13) || (28 <=? c) && (c <=? 32)
   || (c =? 133) || (c =? 160) || (c =? 5760)
   || (8192 <=? c) && (c <=? 8202)
   || (c =? 8232) || (c =? 8233) || (c =? 8239) || (c =? 8287)
   || (c =? 12288))%N.

(** [s.lstrip()] *)
Fixpoint lstrip (s : str) : str :=
  match s with
  | [] => []
  | c :: s' => if isspace c then lstrip s' else s
  end.

(** [s.rstrip()] *)
Fixpoint rstrip (s : str) : str :=
  match s with
  | [] => []
  | c :: s' =>
      match rstrip s' with
      | [] => if isspace c then [] else [c]
      | r => c :: r
      end
  end.

(** [s.strip()] *)
Definition strip (s : str) : str := lstrip (rstrip s).

(** Truth value of a string or of a list: non-empty. *)
Definition truthy {A : Type} (s : list A) : bool :=
  match s with
  | [] => false
  | _ :: _ => true
  end.

(** Truth value of what [d.get(k)] returns: [None] is false. *)
Definition truthy_opt (o : option str) : bool :=
  match o with
  | None => false
  | Some s => truthy s
  end.

(** [s.startswith(p)] *)
Fixpoint startswith (s p : str) {struct p} : bool :=
  match p, s with
  | [], _ => true
  | _ :: _, [] => false
  | a :: p', c :: s' => (c =? a)%N && startswith s' p'
  end.

(** [sub in s] *)
Fixpoint contains (sub s : str) : bool :=
  startswith s sub ||
  match s with
  | [] => false
  | _ :: s' => contains sub s'
  end.

(** [s.split(sep, maxsplit)] for a separator of one character, which is
    what both call sites pass; [maxsplit = None] is Python's default of no
    limit. *)
Fixpoint split (sep : N) (maxsplit : option nat) (s : str) : list str :=
  match s with
  | [] => [[]]
  | c :: s' =>
      let go_on := match maxsplit with Some O => false | _ => true end in
      if (c =? sep)%N && go_on
      then [] :: split sep (Nat.pred <$> maxsplit) s'
      else match split sep maxsplit s' with
           | p :: ps => (c :: p) :: ps
           | [] => [[c]]
           end
  end.

(** [s.replace(old, new)]: every non-overlapping occurrence of [old],
    found from the left, becomes [new].  [skip] counts the characters of
    an occurrence already replaced that are still to be passed over. *)
Fixpoint replace_from (old new : str) (skip : nat) (s : str) : str :=
  match s with
  | [] => []
  | c :: s' =>
      match skip with
      | S k => replace_from old new k s'
      | O =>
          if startswith s old
          then new ++ replace_from old new (Nat.pred (length old)) s'
          else c :: replace_from old new O s'
      end
  end.

Definition replace (s old new : str) : str :=
  match old with
  | [] => new ++ flat_map (fun c => c :: new) s
  | _ :: _ => replace_from old new O s
  end.

(** [sep.join(parts)] *)
Fixpoint join (sep : str) (parts : list str) : str :=
  match parts with
  | [] => []
  | [p] => p
  | p :: ps => p ++ sep ++ join sep ps
  end.

(** [d.get(k)] is [d !! k], with Python's [None] as [None];
    [d.get(k, dflt)]: *)
Definition get_default (d : dict) (k dflt : str) : str :=
  default dflt (d !! k).

(** [d[k]] *)
Definition getitem (d : dict) (k : str) : outcome str :=
  match d !! k with
  | Some v => Ok v
  | None => Raise (KeyError k)
  end.

(** [l[i]] for a non-negative index *)
Definition index {A : Type} (l : list A) (i : nat) : outcome A :=
  match l !! i with
  | Some x => Ok x
  | None => Raise IndexError
  end.

End Py.

Import Py.

Notation "x <- m ;; k" := (bind m (fun x => k))
  (at level 100, m at next level, right associativity).


(** ** The processor *)

(** The two attributes [__init__] sets on a processor: the service handle
    and the spreadsheet id, both [None] until a connection was made. *)
Record TourProcessor : Type := mkTourProcessor {
  service : option N;
  spreadsheet_id : option str
}.

(** Line 71: [[line.strip() for line in raw_data.split('\n') if line.strip()]] *)
Fixpoint stripped_nonempty (ls : list str) : list str :=
  match ls with
  | [] => []
  | line :: ls' =>
      if truthy (strip line)
      then strip line :: stripped_nonempty ls'
      else stripped_nonempty ls'
  end.

Definition lines_of (raw_data : str) : list str :=
  stripped_nonempty (split 10 None raw_data).

(** Lines 76-80: the body of the loop over the lines that fills [data]. *)
Definition basic_field (data : dict) (line : str) : outcome dict :=
  if contains (lit ":") line then
    let parts := split 58 (Some 1) line in
    if (length parts =? 2)%nat then
      match parts with
      | [key; value] => Ok (<[strip key := strip value]> data)
      | _ => Raise ValueError
      end
    else Ok data
  else Ok data.

(** Lines 75-80: [for line in lines: ...] *)
Fixpoint basic_fields (data : dict) (lines : list str) : outcome dict :=
  match lines with
  | [] => Ok data
  | line :: lines' =>
      data' <- basic_field data line ;;
      basic_fields data' lines'
  end.

(** Line 86: the condition of the [if], with the short-circuit of [and]. *)
Definition is_pair_at (lines : list str) (i : nat) : outcome bool :=
  l0 <- index lines i ;;
  if startswith l0 (lit "Name:") then
    if bool_decide (i + 1 < length lines) then
      l1 <- index lines (i + 1) ;;
      Ok (startswith l1 (lit "Value:"))
    else Ok false
  else Ok false.

(** Lines 85-92: the [while] loop, one unit of fuel for each test of its
    condition. *)
Fixpoint name_value_loop (fuel : nat) (lines : list str) (i : nat)
    (name_value_pairs : dict) : outcome dict :=
  match fuel with
  | O => Diverge
  | S fuel' =>
      if bool_decide (i < length lines) then
        matched <- is_pair_at lines i ;;
        if (matched : bool) then
          l0 <- index lines i ;;
          let name := strip (replace l0 (lit "Name:") (lit "")) in
          l1 <- index lines (i + 1) ;;
          let value := strip (replace l1 (lit "Value:") (lit "")) in
          name_value_loop fuel' lines (i + 2) (<[name := value]> name_value_pairs)
        else
          name_value_loop fuel' lines (i + 1) name_value_pairs
      else Ok name_value_pairs
  end.

(** Lines 95-102: the requested dates. *)
Definition dates_requested_of (name_value_pairs : dict) : str :=
  let date_requested := get_default name_value_pairs (lit "Tour Requested Date") (lit "") in
  if negb (truthy date_requested) then
    let date1 := get_default name_value_pairs (lit "White House Date 1") (lit "") in
    let date3 := get_default name_value_pairs (lit "White House Date 3") (lit "") in
    if truthy date1 && truthy date3 then date1 ++ lit " - " ++ date3
    else if truthy date1 then date1
    else date_requested
  else date_requested.

(** Lines 106-111: one optional segment of the comments. *)
Definition append_segment (d : dict) (k label : str) (parts : list str)
    : outcome (list str) :=
  if truthy_opt (d !! k) then
    v <- getitem d k ;;
    Ok (parts ++ [label ++ v])
  else Ok parts.

(** Lines 115-117: the loop over the address fields. *)
Fixpoint address_loop (data : dict) (fields : list str) (address_parts : list str)
    : outcome (list str) :=
  match fields with
  | [] => Ok address_parts
  | field :: fields' =>
      address_parts' <-
        (if truthy_opt (data !! field) then
           v <- getitem data field ;;
           Ok (address_parts ++ [v])
         else Ok address_parts) ;;
      address_loop data fields' address_parts'
  end.

Definition address_fields : list str :=
  [lit "Address1"; lit "Address2"; lit "City"; lit "State"; lit "ZipCode"].

(** Lines 105-119: the parts of the comments. *)
Definition comments_parts_of (data name_value_pairs : dict) : outcome (list str) :=
  let comments_parts := [] in
  comments_parts <-
    append_segment name_value_pairs (lit "Tours Requested") (lit "Tour: ") comments_parts ;;
  comments_parts <-
    append_segment name_value_pairs (lit "Name of Visitors") (lit "Visitors: ") comments_parts ;;
  comments_parts <-
    append_segment name_value_pairs (lit "Channel") (lit "Channel: ") comments_parts ;;
  address_parts <- address_loop data address_fields [] ;;
  if truthy address_parts
  then Ok (comments_parts ++ [lit "Address: " ++ join (lit ", ") address_parts])
  else Ok comments_parts.

(** Lines 69-132.  [fuel] bounds the tests of the [while] condition. *)
Definition extract_data_fuel (fuel : nat) (raw_data : str) : outcome dict :=
  let lines := lines_of raw_data in
  data <- basic_fields ∅ lines ;;
  name_value_pairs <- name_value_loop fuel lines 0 ∅ ;;
  let date_requested := dates_requested_of name_value_pairs in
  comments_parts <- comments_parts_of data name_value_pairs ;;
  let full_name :=
    strip (get_default data (lit "FirstName") (lit "") ++ lit " "
           ++ get_default data (lit "LastName") (lit "")) in
  Ok (<[lit "name" := full_name]>
      (<[lit "email" := get_default data (lit "EmailAddress") (lit "")]>
      (<[lit "phone" := get_default data (lit "PhoneNumber") (lit "")]>
      (<[lit "dates_requested" := date_requested]>
      (<[lit "party_of" :=
           get_default name_value_pairs (lit "Total Number of People in Party") (lit "")]>
      (<[lit "rsvp_link" := lit ""]>
      (<[lit "unable" := lit ""]>
      (<[lit "comments" := join (lit "; ") comments_parts]> ∅)))))))).

(** The loop tests its condition once for every line it stands on and
    once more to leave, so this much fuel is never used up. *)
Definition extract_data (raw_data : str) : outcome dict :=
  extract_data_fuel (S (length (lines_of raw_data))) raw_data.

(** One entry of the dictionary a run returns. *)
Definition entry (o : outcome dict) (k : str) : outcome (option str) :=
  d <- o ;; Ok (d !! k).

(** ** The data model in the words of the specification *)

(** [cut c s] divides [s] at the first occurrence of [c]. *)
Fixpoint cut (c : N) (s : str) : option (str * str) :=
  match s with
  | [] => None
  | x :: s' =>
      if (x =? c)%N then Some ([], s')
      else (fun p : str * str => (x :: p.1, p.2)) <$> cut c s'
  end.

(** The flat field of a line: key and value around the first colon,
    both trimmed. *)
Definition flat_entry (line : str) : option (str * str) :=
  (fun p : str * str => (strip p.1, strip p.2)) <$> cut 58 line.

Definition flat_entries (lines : list str) : list (str * str) :=
  omap flat_entry lines.

(** The scan with a lookahead of two lines: the adjacent line pairs it
    matches, in order. *)
Fixpoint paired_lines (lines : list str) : list (str * str) :=
  match lines with
  | [] => []
  | l0 :: rest =>
      match rest with
      | [] => []
      | l1 :: rest' =>
          if startswith l0 (lit "Name:") && startswith l1 (lit "Value:")
          then (l0, l1) :: paired_lines rest'
          else paired_lines rest
      end
  end.

(** What the code stores for a matched pair (lines 87-88). *)
Definition pair_name (l0 : str) : str := strip (replace l0 (lit "Name:") (lit "")).
Definition pair_value (l1 : str) : str := strip (replace l1 (lit "Value:") (lit "")).

Definition paired_entries (lines : list str) : list (str * str) :=
  (fun p : str * str => (pair_name p.1, pair_value p.2)) <$> paired_lines lines.

(** What the specification says is stored: the prefix taken off the front
    once. *)
Definition strip_prefix (p s : str) : str :=
  if startswith s p then drop (length p) s else s.

(** Writing a list of entries into a dictionary, in order. *)
Definition record_all (d : dict) (es : list (str * str)) : dict :=
  foldl (fun m (e : str * str) => <[e.1 := e.2]> m) d es.

(** The value of the last entry of [es] with key [k]. *)
Fixpoint last_value (k : str) (es : list (str * str)) : option str :=
  match es with
  | [] => None
  | e :: es' =>
      match last_value k es' with
      | Some v => Some v
      | None => if decide (e.1 = k) then Some e.2 else None
      end
  end.

(** No whitespace at either end. *)
Definition trimmed (s : str) : bool :=
  match s with
  | [] => true
  | c :: _ => negb (isspace c) && negb (isspace (List.last s c))
  end.

(** The two halves of [trimmed], by recursion on the string. *)
Definition starts_clean (s : str) : bool :=
  match s with
  | [] => true
  | c :: _ => negb (isspace c)
  end.

Fixpoint ends_clean (s : str) : bool :=
  match s with
  | [] => true
  | c :: s' =>
      match s' with
      | [] => negb (isspace c)
      | _ :: _ => ends_clean s'
      end
  end.

(** A piece that can stand at either end of a composed field: not empty
    and trimmed. *)
Definition solid (s : str) : Prop :=
  s <> [] /\ starts_clean s = true /\ ends_clean s = true.

(** A segment of the comments, present when its value is not empty. *)
Definition segment (label v : str) : list str :=
  if truthy v then [label ++ v] else [].

Definition nonempty_values (d : dict) (fields : list str) : list str :=
  List.filter truthy ((fun f => get_default d f []) <$> fields).

(** The address segment: the non-empty address values joined by a
    comma and a space, present when there is at least one. *)
Definition address_segment (data : dict) : list str :=
  let vs := nonempty_values data address_fields in
  if truthy vs then [lit "Address: " ++ join (lit ", ") vs] else [].

Definition comment_segments (data name_value_pairs : dict) : list str :=
  segment (lit "Tour: ") (get_default name_value_pairs (lit "Tours Requested") [])
  ++ segment (lit "Visitors: ") (get_default name_value_pairs (lit "Name of Visitors") [])
  ++ segment (lit "Channel: ") (get_default name_value_pairs (lit "Channel") [])
  ++ address_segment data.

(** The returned dictionary as a function of the two mappings. *)
Definition record_of (data name_value_pairs : dict) : dict :=
  <[lit "name" :=
      strip (get_default data (lit "FirstName") [] ++ lit " "
             ++ get_default data (lit "LastName") [])]>
  (<[lit "email" := get_default data (lit "EmailAddress") []]>
  (<[lit "phone" := get_default data (lit "PhoneNumber") []]>
  (<[lit "dates_requested" := dates_requested_of name_value_pairs]>
  (<[lit "party_of" :=
       get_default name_value_pairs (lit "Total Number of People in Party") []]>
  (<[lit "rsvp_link" := []]>
  (<[lit "unable" := []]>
  (<[lit "comments" :=
       join (lit "; ") (comment_segments data name_value_pairs)]> ∅))))))).

(** The names of the returned fields. *)
Definition field_names : list str :=
  [lit "name"; lit "email"; lit "phone"; lit "dates_requested";
   lit "party_of"; lit "rsvp_link"; lit "unable"; lit "comments"].

(** ** The method on the objects of the interpreter *)

(** [extract_data] once more, this time with what the interpreter holds
    while it runs: the processor [self] points to, the clock, and the
    dictionaries and lists alive, each at its location.  The method makes
    its dictionaries and lists as new objects and changes them in place, as
    the source does with [data[..] = ..] and [.append(..)]; strings,
    numbers and the list [lines], which is never changed, are values. *)
Module Store.

Inductive obj : Type :=
| DictObj (d : dict)
| ListObj (l : list str).

Record world : Type := World {
  processor : TourProcessor;
  clock : N;
  heap : gmap N obj
}.

Definition set_heap (w : world) (h : gmap N obj) : world :=
  {| processor := processor w; clock := clock w; heap := h |}.

(** How a run from a world ends: normally, with a value and the world
    it leaves; with an exception; on a reference to no object or to an
    object of the wrong kind; or out of fuel. *)
Inductive ended (A : Type) : Type :=
| Done (a : A) (w : world)
| Failed (e : exn)
| Stuck
| Unfinished.

Arguments Done {A} a w.
Arguments Failed {A} e.
Arguments Stuck {A}.
Arguments Unfinished {A}.

Definition M (A : Type) : Type := world -> ended A.

Definition ret {A : Type} (a : A) : M A := fun w => Done a w.

Definition sbind {A B : Type} (m : M A) (k : A -> M B) : M B :=
  fun w =>
    match m w with
    | Done a w' => k a w'
    | Failed e => Failed e
    | Stuck => Stuck
    | Unfinished => Unfinished
    end.

(** A computation on values alone. *)
Definition lift {A : Type} (o : outcome A) : M A :=
  fun w =>
    match o with
    | Ok a => Done a w
    | Raise e => Failed e
    | Diverge => Unfinished
    end.

(** A new object, at a location not in use. *)
Definition new (o : obj) : M N :=
  fun w =>
    let l := fresh (dom (heap w)) in
    Done l (set_heap w (<[l := o]> (heap w))).

(** [d[k] = v] on the dictionary at [l] *)
Definition dict_set (l : N) (k v : str) : M unit :=
  fun w =>
    match heap w !! l with
    | Some (DictObj d) => Done tt (set_heap w (<[l := DictObj (<[k := v]> d)]> (heap w)))
    | _ => Stuck
    end.

(** [d.get(k)] *)
Definition dict_get (l : N) (k : str) : M (option str) :=
  fun w =>
    match heap w !! l with
    | Some (DictObj d) => Done (d !! k) w
    | _ => Stuck
    end.

(** [d.get(k, dflt)] *)
Definition dict_get_default (l : N) (k dflt : str) : M str :=
  fun w =>
    match heap w !! l with
    | Some (DictObj d) => Done (default dflt (d !! k)) w
    | _ => Stuck
    end.

(** [d[k]] *)
Definition dict_item (l : N) (k : str) : M str :=
  fun w =>
    match heap w !! l with
    | Some (DictObj d) =>
        match d !! k with
        | Some v => Done v w
        | None => Failed (KeyError k)
        end
    | _ => Stuck
    end.

(** [xs.append(v)] on the list at [l] *)
Definition list_append (l : N) (v : str) : M unit :=
  fun w =>
    match heap w !! l with
    | Some (ListObj xs) => Done tt (set_heap w (<[l := ListObj (xs ++ [v])]> (heap w)))
    | _ => Stuck
    end.

(** The elements of the list at [l], as read by [if xs:] and [join]. *)
Definition list_value (l : N) : M (list str) :=
  fun w =>
    match heap w !! l with
    | Some (ListObj xs) => Done xs w
    | _ => Stuck
    end.

End Store.

Import Store.

Notation "x <<- m ;; k" := (sbind m (fun x => k))
  (at level 100, m at next level, right associativity).

(** Lines 76-80 on the dictionary at [data]. *)
Definition basic_field_st (data : N) (line : str) : M unit :=
  if contains (lit ":") line then
    let parts := split 58 (Some 1) line in
    if (length parts =? 2)%nat then
      match parts with
      | [key; value] => dict_set data (strip key) (strip value)
      | _ => lift (Raise ValueError)
      end
    else ret tt
  else ret tt.

(** Lines 75-80. *)
Fixpoint basic_fields_st (data : N) (lines : list str) : M unit :=
  match lines with
  | [] => ret tt
  | line :: lines' =>
      _ <<- basic_field_st data line ;;
      basic_fields_st data lines'
  end.

(** Lines 85-92 on the dictionary at [name_value_pairs]. *)
Fixpoint name_value_loop_st (fuel : nat) (lines : list str) (i : nat)
    (name_value_pairs : N) : M unit :=
  match fuel with
  | O => fun _ => Unfinished
  | S fuel' =>
      if bool_decide (i < length lines) then
        matched <<- lift (is_pair_at lines i) ;;
        if (matched : bool) then
          l0 <<- lift (index lines i) ;;
          let name := strip (replace l0 (lit "Name:") (lit "")) in
          l1 <<- lift (index lines (i + 1)) ;;
          let value := strip (replace l1 (lit "Value:") (lit "")) in
          _ <<- dict_set name_value_pairs name value ;;
          name_value_loop_st fuel' lines (i + 2) name_value_pairs
        else
          name_value_loop_st fuel' lines (i + 1) name_value_pairs
      else ret tt
  end.

(** Lines 95-102. *)
Definition dates_requested_st (name_value_pairs : N) : M str :=
  date_requested <<-
    dict_get_default name_value_pairs (lit "Tour Requested Date") (lit "") ;;
  if negb (truthy date_requested) then
    date1 <<- dict_get_default name_value_pairs (lit "White House Date 1") (lit "") ;;
    date3 <<- dict_get_default name_value_pairs (lit "White House Date 3") (lit "") ;;
    if truthy date1 && truthy date3 then ret (date1 ++ lit " - " ++ date3)
    else if truthy date1 then ret date1
    else ret date_requested
  else ret date_requested.

(** Lines 106-111: one optional segment, appended to the list at
    [comments_parts]. *)
Definition append_segment_st (d : N) (k label : str) (comments_parts : N) : M unit :=
  o <<- dict_get d k ;;
  if truthy_opt o then
    v <<- dict_item d k ;;
    list_append comments_parts (label ++ v)
  else ret tt.

(** Lines 115-117. *)
Fixpoint address_loop_st (data : N) (fields : list str) (address_parts : N) : M unit :=
  match fields with
  | [] => ret tt
  | field :: fields' =>
      o <<- dict_get data field ;;
      _ <<- (if truthy_opt o then
               v <<- dict_item data field ;;
               list_append address_parts v
             else ret tt) ;;
      address_loop_st data fields' address_parts
  end.

(** Lines 105-119; the location of [comments_parts] is returned. *)
Definition comments_parts_st (data name_value_pairs : N) : M N :=
  comments_parts <<- new (ListObj []) ;;
  _ <<- append_segment_st name_value_pairs (lit "Tours Requested") (lit "Tour: ")
          comments_parts ;;
  _ <<- append_segment_st name_value_pairs (lit "Name of Visitors") (lit "Visitors: ")
          comments_parts ;;
  _ <<- append_segment_st name_value_pairs (lit "Channel") (lit "Channel: ")
          comments_parts ;;
  address_parts <<- new (ListObj []) ;;
  _ <<- address_loop_st data address_fields address_parts ;;
  parts <<- list_value address_parts ;;
  _ <<- (if truthy parts
         then list_append comments_parts (lit "Address: " ++ join (lit ", ") parts)
         else ret tt) ;;
  ret comments_parts.

(** Lines 69-132; the location of the dictionary returned. *)
Definition extract_data_st (fuel : nat) (raw_data : str) : M N :=
  let lines := lines_of raw_data in
  data <<- new (DictObj ∅) ;;
  _ <<- basic_fields_st data lines ;;
  name_value_pairs <<- new (DictObj ∅) ;;
  _ <<- name_value_loop_st fuel lines 0 name_value_pairs ;;
  date_requested <<- dates_requested_st name_value_pairs ;;
  comments_parts <<- comments_parts_st data name_value_pairs ;;
  first_name <<- dict_get_default data (lit "FirstName") (lit "") ;;
  last_name <<- dict_get_default data (lit "LastName") (lit "") ;;
  let full_name := strip (first_name ++ lit " " ++ last_name) in
  email <<- dict_get_default data (lit "EmailAddress") (lit "") ;;
  phone <<- dict_get_default data (lit "PhoneNumber") (lit "") ;;
  party_of <<-
    dict_get_default name_value_pairs (lit "Total Number of People in Party") (lit "") ;;
  parts <<- list_value comments_parts ;;
  new (DictObj
         (<[lit "name" := full_name]>
         (<[lit "email" := email]>
         (<[lit "phone" := phone]>
         (<[lit "dates_requested" := date_requested]>
         (<[lit "party_of" := party_of]>
         (<[lit "rsvp_link" := lit ""]>
         (<[lit "unable" := lit ""]>
         (<[lit "comments" := join (lit "; ") parts]> ∅))))))))).

(** The method called: [self] is in the world, and the loop has the fuel
    it needs. *)
Definition extract_data_call (raw_data : str) : M N :=
  extract_data_st (S (length (lines_of raw_data))) raw_data.

(** What a call that ended normally returned: the dictionary at the
    location it gave. *)
Definition returned_record (r : ended N) : option dict :=
  match r with
  | Done l w =>
      match heap w !! l with
      | Some (DictObj d) => Some d
      | _ => None
      end
  | _ => None
  end.

(** What a run leaves alone: the processor, the clock, and every object
    that was alive, at its location and with its content. *)
Definition keeps (w w' : world) : Prop :=
  processor w' = processor w
  /\ clock w' = clock w
  /\ forall l o, heap w !! l = Some o -> heap w' !! l = Some o.

(** A world to run in: a processor that is connected, a time, and two
    objects alive, one of them a dictionary with an entry. *)
Definition busy_world : world :=
  {| processor := mkTourProcessor (Some 7%N) (Some (lit "sheet"));
     clock := 1730000000%N;
     heap := <[0%N := DictObj {[ lit "FirstName" := lit "Bob" ]}]>
             (<[1%N := ListObj [lit "Tour: old"]]> ∅) |}.

Definition empty_world : world :=
  {| processor := mkTourProcessor None None; clock := 0%N; heap := ∅ |}.

(** ** The calls into the client libraries *)

(** [authenticate_with_user_credentials] and [add_to_sheet] (lines 21-67
    and 134-184) talk to [json] and to the Google client.  What those
    libraries answer is not in the repository: a method is a tree of calls,
    and at each call the tree goes on from whatever the library replies, a
    returned value or a raised exception. *)
Module Api.

(** The classes of exception the [except] clauses tell apart, all of
    them below [Exception]; [OtherC] stands for every other class below
    it.  Interrupts and exits, which are not, are left out. *)
Inductive exn_class : Type :=
| KeyErrorC (k : str)
| JSONDecodeErrorC
| HttpErrorC (status : N)
| OtherC.

(** An exception: its class and what [str(e)] gives. *)
Record raised : Type := Exn {
  cls : exn_class;
  message : str
}.

Inductive reply (X : Type) : Type :=
| Returned (x : X)
| Raised (e : raised).

Arguments Returned {X} x.
Arguments Raised {X} e.

(** The calls of the two methods.  Objects of the libraries (the parsed
    credentials, the credentials object, the service) are handles.
    [GetType d] is [d.get('type')], with [None] for a missing key and for a
    value that is no string; [ValuesGet] is
    [service.spreadsheets().values().get(..).execute()] and returns the
    entry [values] of the result, [None] when the result has none. *)
Inductive call : Type -> Type :=
| JsonLoads (text : str) : call N
| GetType (credentials_data : N) : call (option str)
| FromServiceAccountInfo (credentials_data : N) (scopes : list str) : call N
| Build (serviceName version : str) (credentials : N) : call N
| ValuesGet (service : N) (spreadsheetId range : str)
    : call (option (list (list str)))
| ValuesAppend (service : N) (spreadsheetId range valueInputOption : str)
    (values : list (list str)) : call unit.

Inductive prog (A : Type) : Type :=
| Ret (a : A)
| Throw (e : raised)
| Call {X : Type} (c : call X) (k : reply X -> prog A).

Arguments Ret {A} a.
Arguments Throw {A} e.
Arguments Call {A X} c k.

Fixpoint pbind {A B : Type} (p : prog A) (f : A -> prog B) : prog B :=
  match p with
  | Ret a => f a
  | Throw e => Throw e
  | Call c k => Call c (fun r => pbind (k r) f)
  end.

(** One call: its value, or its exception raised on. *)
Definition perform {X : Type} (c : call X) : prog X :=
  Call c (fun r => match r with
                   | Returned x => Ret x
                   | Raised e => Throw e
                   end).

(** [try: p except .. as e: handler e] *)
Fixpoint try_except {A : Type} (p : prog A) (handler : raised -> prog A) : prog A :=
  match p with
  | Ret a => Ret a
  | Throw e => handler e
  | Call c k => Call c (fun r => try_except (k r) handler)
  end.

(** A call as it happened, with its reply. *)
Inductive event : Type :=
| Event {X : Type} (c : call X) (r : reply X).

(** The libraries and the world behind them: a reply to every call, and a
    state of their own that the replies may depend on and change. *)
Definition env (S : Type) : Type := forall X : Type, call X -> S -> reply X * S.

(** Running a method: what it returns or raises, the calls it made, and
    the state the libraries are left in. *)
Fixpoint exec {S A : Type} (e : env S) (p : prog A) (s : S)
    : (A + raised) * list event * S :=
  match p with
  | Ret a => (inl a, [], s)
  | Throw x => (inr x, [], s)
  | Call c k =>
      let (r, s') := e _ c s in
      let '(res, log, s'') := exec e (k r) s' in
      (res, Event c r :: log, s'')
  end.

Definition run {S A : Type} (e : env S) (p : prog A) (s : S)
    : (A + raised) * list event :=
  (exec e p s).1.

End Api.

Import Api.

Notation "x <~ m ;; k" := (pbind m (fun x => k))
  (at level 100, m at next level, right associativity).

(** [repr(k)] for a key without quote, backslash or unprintable
    character, as every key the code indexes with is. *)
Definition repr (k : str) : str := lit "'" ++ k ++ lit "'".

(** [d[k]] inside a method. *)
Definition item (d : dict) (k : str) : prog str :=
  match d !! k with
  | Some v => Ret v
  | None => Throw (Exn (KeyErrorC k) (repr k))
  end.

(** [str(n)] for a status code. *)
Definition str_of_int (n : N) : str := lit (NilZero.string_of_uint (N.to_uint n)).

(** Lines 17-19: [__init__]. *)
Definition init : TourProcessor :=
  {| service := None; spreadsheet_id := None |}.

(** Lines 21-67. *)
Definition authenticate_with_user_credentials (self : TourProcessor)
    (credentials_json spreadsheet_id : str)
    : prog (bool * str * TourProcessor) :=
  try_except
    (credentials_data <~ perform (JsonLoads credentials_json) ;;
     type <~ perform (GetType credentials_data) ;;
     if negb (bool_decide (type = Some (lit "service_account"))) then
       Ret (false, lit "Invalid credentials: Must be a service account JSON file", self)
     else
       credentials <~ perform (FromServiceAccountInfo credentials_data
                       [lit "https://www.googleapis.com/auth/spreadsheets"]) ;;
       service <~ perform (Build (lit "sheets") (lit "v4") credentials) ;;
       test_result <~ perform (ValuesGet service spreadsheet_id (lit "A1:A1")) ;;
       let self := {| service := Some service; spreadsheet_id := Some spreadsheet_id |} in
       Ret (true, lit "Successfully connected to Google Sheets", self))
    (fun e =>
       match cls e with
       | JSONDecodeErrorC => Ret (false, lit "Invalid JSON format in credentials", self)
       | HttpErrorC status =>
           if (status =? 403)%N then
             Ret (false, lit "Permission denied: Make sure you've shared the spreadsheet with the service account email", self)
           else if (status =? 404)%N then
             Ret (false, lit "Spreadsheet not found: Check your spreadsheet ID", self)
           else
             Ret (false, lit "Google Sheets API error: " ++ str_of_int status, self)
       | _ => Ret (false, lit "Authentication failed: " ++ message e, self)
       end).

(** Lines 149-152. *)
Definition headers : list (list str) :=
  [[lit "Name"; lit "Email"; lit "Phone Number"; lit "Dates Requested";
    lit "Party Of"; lit "RSVP Link"; lit "Unable"; lit "Comments"]].

(** Lines 164-173: the row, its entries read in this order. *)
Definition row_of (extracted_data : dict) : prog (list (list str)) :=
  name <~ item extracted_data (lit "name") ;;
  email <~ item extracted_data (lit "email") ;;
  phone <~ item extracted_data (lit "phone") ;;
  dates_requested <~ item extracted_data (lit "dates_requested") ;;
  party_of <~ item extracted_data (lit "party_of") ;;
  rsvp_link <~ item extracted_data (lit "rsvp_link") ;;
  unable <~ item extracted_data (lit "unable") ;;
  comments <~ item extracted_data (lit "comments") ;;
  Ret [[name; email; phone; dates_requested; party_of; rsvp_link; unable; comments]].

(** Lines 134-184.  A service object is true; a spreadsheet id is true
    when it is a string that is not empty. *)
Definition add_to_sheet (self : TourProcessor) (extracted_data : dict) : prog bool :=
  match service self, spreadsheet_id self with
  | Some svc, Some sid =>
      if truthy sid then
        _ <~ try_except
               (result <~ perform (ValuesGet svc sid (lit "A1:H1")) ;;
                let values := default [] result in
                if negb (truthy values) then
                  _ <~ perform (ValuesAppend svc sid (lit "A1:H1") (lit "RAW") headers) ;;
                  Ret tt
                else Ret tt)
               (fun _ => Ret tt) ;;
        row <~ row_of extracted_data ;;
        try_except
          (_ <~ perform (ValuesAppend svc sid (lit "A:H") (lit "RAW") row) ;;
           Ret true)
          (fun e =>
             match cls e with
             | HttpErrorC _ => Ret false
             | _ => Throw e
             end)
      else Ret false
  | _, _ => Ret false
  end.

(** The row [add_to_sheet] writes for a dictionary with the eight keys. *)
Definition cells (d : dict) : list (list str) :=
  [(fun k => default [] (d !! k)) <$> field_names].

(** Libraries that answer every call with a value, for running the
    methods: handles are taken in order, the credentials have the type
    [type], and the sheet read has the rows [sheet]. *)
Definition obliging (type : option str) (sheet : option (list (list str))) : env N :=
  fun X c =>
    match c in call X return N -> reply X * N with
    | JsonLoads _ => fun n => (Returned n, N.succ n)
    | GetType _ => fun n => (Returned type, n)
    | FromServiceAccountInfo _ _ => fun n => (Returned n, N.succ n)
    | Build _ _ _ => fun n => (Returned n, N.succ n)
    | ValuesGet _ _ _ => fun n => (Returned sheet, n)
    | ValuesAppend _ _ _ _ _ => fun n => (Returned tt, n)
    end.

(** Libraries whose every call raises [e]. *)
Definition failing (e : raised) : env unit :=
  fun X c s => (Raised e, s).

(** The exception the last call of a run raised, if it raised one. *)
Definition raised_of (ev : event) : option raised :=
  match ev with
  | Event _ (Raised e) => Some e
  | Event _ (Returned _) => None
  end.

Definition last_raised (log : list event) : option raised :=
  match reverse log with
  | [] => None
  | ev :: _ => raised_of ev
  end.

(** The rows a run asked the sheet to take: for every append its
    service, spreadsheet, range and rows, whatever the reply was. *)
Definition appended (ev : event) : option (N * str * str * list (list str)) :=
  match ev with
  | Event (ValuesAppend svc sid range _ values) _ => Some (svc, sid, range, values)
  | Event _ _ => None
  end.

Definition appends (log : list event) : list (N * str * str * list (list str)) :=
  omap appended log.

(** The first key of the row that a dictionary lacks. *)
Definition first_missing (d : dict) : option str :=
  List.find (fun k => bool_decide (d !! k = None)) field_names.

(** What [authenticate_with_user_credentials] answers to an exception. *)
Definition failure_message (e : raised) : str :=
  match cls e with
  | JSONDecodeErrorC => lit "Invalid JSON format in credentials"
  | HttpErrorC status =>
      if (status =? 403)%N then
        lit "Permission denied: Make sure you've shared the spreadsheet with the service account email"
      else if (status =? 404)%N then
        lit "Spreadsheet not found: Check your spreadsheet ID"
      else lit "Google Sheets API error: " ++ str_of_int status
  | KeyErrorC _ | OtherC => lit "Authentication failed: " ++ message e
  end.

(** ** Strings *)

(** Literals are replaced by their code points before a proof looks
    inside them. *)
Ltac eval_lits :=
  repeat match goal with
    | |- context [lit ?s] =>
        let v := eval vm_compute in (lit s) in change (lit s) with v
    | H : context [lit ?s] |- _ =>
        let v := eval vm_compute in (lit s) in change (lit s) with v in H
    end.

Lemma split_no_more (c : N) (s : str) : split c (Some 0) s = [s].
Proof.
  induction s as [|x s IH]; [reflexivity|].
  cbn [split]. rewrite andb_false_r, IH. reflexivity.
Qed.

Lemma split_once (c : N) (s : str) :
  split c (Some 1) s =
  match cut c s with
  | Some p => [p.1; p.2]
  | None => [s]
  end.
Proof.
  induction s as [|x s IH]; [reflexivity|].
  cbn [split cut]. rewrite andb_true_r.
  destruct (x =? c)%N.
  - cbn. rewrite split_no_more. reflexivity.
  - rewrite IH. destruct (cut c s) as [[a b]|]; reflexivity.
Qed.

Lemma contains_char (c : N) (s : str) :
  contains [c] s = bool_decide (is_Some (cut c s)).
Proof.
  induction s as [|x s IH]; [reflexivity|].
  cbn [contains startswith cut]. rewrite IH, andb_true_r.
  destruct (x =? c)%N; cbn.
  - reflexivity.
  - apply bool_decide_ext. rewrite fmap_is_Some. reflexivity.
Qed.

Lemma cut_spec (c : N) (s a b : str) :
  cut c s = Some (a, b) <-> s = a ++ c :: b /\ c ∉ a.
Proof.
  revert a. induction s as [|x s IH]; intros a; cbn [cut].
  - split; [discriminate|]. intros [E _]. destruct a; discriminate.
  - destruct (N.eqb_spec x c) as [->|Hne].
    + split.
      * intros [= <- <-]. split; [reflexivity|]. apply not_elem_of_nil.
      * intros [E Hn]. destruct a as [|y a]; [by injection E as ->|].
        injection E as -> ->. exfalso. apply Hn. left.
    + split.
      * destruct (cut c s) as [[a' b']|] eqn:Hc; [|discriminate].
        cbn. intros [= <- <-]. destruct (proj1 (IH a') eq_refl) as [-> Hn].
        split; [reflexivity|]. rewrite not_elem_of_cons. done.
      * intros [E Hn]. destruct a as [|y a].
        { injection E as -> _. done. }
        injection E as -> ->. apply not_elem_of_cons in Hn as [_ Hn].
        rewrite (proj2 (IH a) (conj eq_refl Hn)). reflexivity.
Qed.

(** ** The flat fields *)

Lemma basic_field_entry (data : dict) (line : str) :
  basic_field data line =
  Ok (match flat_entry line with
      | Some e => <[e.1 := e.2]> data
      | None => data
      end).
Proof.
  unfold basic_field, flat_entry.
  change (lit ":") with [58%N]. rewrite contains_char, split_once.
  destruct (cut 58 line) as [[a b]|]; reflexivity.
Qed.

Lemma basic_fields_entries (data : dict) (lines : list str) :
  basic_fields data lines = Ok (record_all data (flat_entries lines)).
Proof.
  revert data. induction lines as [|line lines IH]; intros data; [reflexivity|].
  cbn [basic_fields]. rewrite basic_field_entry. cbn [bind]. rewrite IH.
  unfold flat_entries. cbn [omap list_omap].
  destruct (flat_entry line); reflexivity.
Qed.

(** ** Dictionaries written entry by entry *)

Lemma record_all_lookup (d : dict) (es : list (str * str)) (k : str) :
  record_all d es !! k =
  match last_value k es with
  | Some v => Some v
  | None => d !! k
  end.
Proof.
  revert d. induction es as [|[k' v] es IH]; intros d; [reflexivity|].
  cbn [record_all foldl last_value] in *. rewrite IH.
  destruct (last_value k es); [reflexivity|]. cbn.
  destruct (decide (k' = k)) as [->|Hne].
  - apply lookup_insert_eq.
  - by apply lookup_insert_ne.
Qed.

Lemma last_value_elem (k w : str) (es : list (str * str)) :
  last_value k es = Some w -> (k, w) ∈ es.
Proof.
  induction es as [|[k' v'] es IH]; cbn [last_value]; [discriminate|].
  destruct (last_value k es) as [u|].
  - intros [= ->]. right. by apply IH.
  - cbn. destruct (decide (k' = k)) as [->|]; [|discriminate].
    intros [= ->]. left.
Qed.

Lemma last_value_None (k : str) (es : list (str * str)) :
  last_value k es = None -> forall w, (k, w) ∉ es.
Proof.
  induction es as [|[k' v'] es IH]; cbn [last_value]; intros Hl w.
  - apply not_elem_of_nil.
  - destruct (last_value k es) as [u|]; [discriminate|].
    cbn in Hl. destruct (decide (k' = k)) as [|Hne]; [discriminate|].
    apply not_elem_of_cons. split; [congruence|]. by apply IH.
Qed.

Lemma last_value_Some (k v : str) (es : list (str * str)) :
  last_value k es = Some v <->
  exists es1 es2, es = es1 ++ (k, v) :: es2 /\ forall w, (k, w) ∉ es2.
Proof.
  revert v. induction es as [|[k' v'] es IH]; intros v; cbn [last_value].
  - split; [discriminate|]. intros (es1 & es2 & E & _). destruct es1; discriminate.
  - destruct (last_value k es) as [w|] eqn:Hl.
    + split.
      * intros [= ->]. destruct (proj1 (IH v) eq_refl) as (es1 & es2 & -> & Hn).
        exists ((k', v') :: es1), es2. done.
      * intros (es1 & es2 & E & Hn). destruct es1 as [|e1 es1]; simplify_eq/=.
        { apply last_value_elem in Hl. by apply Hn in Hl. }
        apply IH. eauto.
    + pose proof (last_value_None _ _ Hl) as Hnone.
      cbn. destruct (decide (k' = k)) as [->|Hne].
      * split.
        { intros [= ->]. exists [], es. done. }
        intros (es1 & es2 & E & Hn). destruct es1 as [|e1 es1]; simplify_eq/=.
        { reflexivity. }
        exfalso. apply (Hnone v). apply elem_of_app. right. left.
      * split; [discriminate|].
        intros (es1 & es2 & E & Hn). destruct es1 as [|e1 es1]; simplify_eq/=.
        exfalso. apply (Hnone v). apply elem_of_app. right. left.
Qed.

(** ** The scan for pairs *)

Lemma name_not_value (s : str) :
  startswith s (lit "Name:") = true -> startswith s (lit "Value:") = false.
Proof.
  eval_lits. destruct s as [|c s]; [discriminate|]. cbn.
  destruct (N.eqb_spec c 78) as [->|]; [reflexivity|discriminate].
Qed.

Lemma paired_lines_step (l0 : str) (rest : list str) :
  paired_lines (l0 :: rest) =
  match rest with
  | l1 :: rest' =>
      if startswith l0 (lit "Name:") && startswith l1 (lit "Value:")
      then (l0, l1) :: paired_lines rest'
      else paired_lines rest
  | [] => paired_lines rest
  end.
Proof. destruct rest; reflexivity. Qed.

Lemma is_pair_at_ok (lines : list str) (i : nat) (l0 : str) :
  lines !! i = Some l0 ->
  is_pair_at lines i =
  Ok (match lines !! (i + 1) with
      | Some l1 => startswith l0 (lit "Name:") && startswith l1 (lit "Value:")
      | None => false
      end).
Proof.
  intros H0. unfold is_pair_at, index. rewrite H0. cbn [bind].
  destruct (startswith l0 (lit "Name:")).
  - destruct (lines !! (i + 1)) as [l1|] eqn:H1.
    + rewrite bool_decide_eq_true_2 by (by eapply lookup_lt_Some).
      reflexivity.
    + rewrite bool_decide_eq_false_2; [reflexivity|].
      apply lookup_ge_None in H1. lia.
  - destruct (lines !! (i + 1)); reflexivity.
Qed.

Lemma name_value_loop_run (fuel : nat) (lines : list str) (i : nat) (d : dict) :
  length lines - i < fuel ->
  name_value_loop fuel lines i d
  = Ok (record_all d (paired_entries (drop i lines))).
Proof.
  revert i d. induction fuel as [|fuel IH]; intros i d Hf; [lia|].
  cbn [name_value_loop]. case_bool_decide as Hi.
  - destruct (lookup_lt_is_Some_2 lines i Hi) as [l0 H0].
    rewrite (is_pair_at_ok _ _ _ H0). cbn [bind].
    rewrite (drop_S _ _ _ H0). unfold paired_entries.
    destruct (lines !! (i + 1)) as [l1|] eqn:H1.
    + replace (S i) with (i + 1) by lia.
      rewrite (drop_S _ _ _ H1). cbn [paired_lines].
      destruct (startswith l0 (lit "Name:") && startswith l1 (lit "Value:")).
      * unfold index. rewrite H0, H1. cbn [bind].
        rewrite IH by lia. replace (S (i + 1)) with (i + 2) by lia.
        reflexivity.
      * rewrite IH by lia. rewrite (drop_S _ _ _ H1). reflexivity.
    + rewrite IH by lia. apply lookup_ge_None in H1.
      rewrite !drop_ge by lia. reflexivity.
  - rewrite drop_ge by lia. reflexivity.
Qed.

Lemma paired_lines_lone_name (l1 : list str) (x : str) (l2 : list str) :
  startswith x (lit "Name:") = true ->
  match l2 with
  | [] => True
  | y :: _ => startswith y (lit "Value:") = false
  end ->
  paired_lines (l1 ++ x :: l2) = paired_lines (l1 ++ l2).
Proof.
  intros Hx Hy. pose proof (name_not_value _ Hx) as Hxv.
  assert (H0 : paired_lines (x :: l2) = paired_lines l2).
  { rewrite paired_lines_step. destruct l2 as [|y l2]; [reflexivity|].
    rewrite Hy, andb_false_r. reflexivity. }
  remember (length l1) as n eqn:Hn. revert l1 Hn.
  induction (lt_wf n) as [n _ IH]. intros [|a [|b l1]] Hn.
  - exact H0.
  - cbn [app]. rewrite (paired_lines_step a (x :: l2)), Hxv, andb_false_r, H0.
    rewrite paired_lines_step. destruct l2 as [|y l2]; [reflexivity|].
    rewrite Hy, andb_false_r. reflexivity.
  - cbn [length] in Hn. cbn [app].
    rewrite (paired_lines_step a (b :: l1 ++ x :: l2)).
    rewrite (paired_lines_step a (b :: l1 ++ l2)).
    rewrite (IH (length l1) ltac:(lia) l1 eq_refl).
    pose proof (IH (length (b :: l1)) ltac:(cbn; lia) (b :: l1) eq_refl) as IHb.
    cbn [app] in IHb. rewrite IHb. reflexivity.
Qed.

(** ** The comments and the returned dictionary *)

Lemma append_segment_ok (d : dict) (k label : str) (parts : list str) :
  append_segment d k label parts
  = Ok (parts ++ segment label (get_default d k [])).
Proof.
  unfold append_segment, getitem, get_default, segment.
  destruct (d !! k) as [[|c v]|]; cbn; rewrite ?app_nil_r; reflexivity.
Qed.

Lemma address_loop_ok (data : dict) (fields : list str) (acc : list str) :
  address_loop data fields acc = Ok (acc ++ nonempty_values data fields).
Proof.
  revert acc. induction fields as [|f fields IH]; intros acc.
  - cbn. by rewrite app_nil_r.
  - cbn [address_loop]. unfold getitem, nonempty_values, get_default in *.
    cbn [fmap list_fmap List.filter].
    destruct (data !! f) as [[|c v]|]; cbn [truthy_opt truthy bind default];
      rewrite IH; [reflexivity| |reflexivity].
    by rewrite <- app_assoc.
Qed.

Lemma comments_parts_ok (data name_value_pairs : dict) :
  comments_parts_of data name_value_pairs
  = Ok (comment_segments data name_value_pairs).
Proof.
  unfold comments_parts_of, comment_segments, address_segment.
  repeat (rewrite append_segment_ok; cbn [bind]).
  rewrite address_loop_ok. cbn [bind app].
  destruct (nonempty_values data address_fields); cbn [truthy];
    rewrite ?app_nil_r, <- ?app_assoc; reflexivity.
Qed.

Lemma extract_data_fuel_run (fuel : nat) (raw_data : str) :
  length (lines_of raw_data) < fuel ->
  extract_data_fuel fuel raw_data
  = Ok (record_of (record_all ∅ (flat_entries (lines_of raw_data)))
                  (record_all ∅ (paired_entries (lines_of raw_data)))).
Proof.
  intros Hf. unfold extract_data_fuel.
  rewrite basic_fields_entries. cbn [bind].
  rewrite name_value_loop_run by lia. cbn [bind]. rewrite drop_0.
  rewrite comments_parts_ok. reflexivity.
Qed.

Lemma extract_data_run (raw_data : str) :
  extract_data raw_data
  = Ok (record_of (record_all ∅ (flat_entries (lines_of raw_data)))
                  (record_all ∅ (paired_entries (lines_of raw_data)))).
Proof. apply extract_data_fuel_run. lia. Qed.

(** Reading a field of the returned dictionary. *)
Ltac read_field :=
  unfold record_of; eval_lits;
  repeat first
    [ rewrite lookup_insert_eq
    | rewrite lookup_insert_ne by discriminate ];
  try reflexivity.

Lemma record_of_name (data nvp : dict) :
  record_of data nvp !! lit "name"
  = Some (strip (get_default data (lit "FirstName") [] ++ lit " "
                 ++ get_default data (lit "LastName") [])).
Proof. read_field. Qed.

Lemma record_of_dates (data nvp : dict) :
  record_of data nvp !! lit "dates_requested" = Some (dates_requested_of nvp).
Proof. read_field. Qed.

Lemma record_of_party (data nvp : dict) :
  record_of data nvp !! lit "party_of"
  = Some (get_default nvp (lit "Total Number of People in Party") []).
Proof. read_field. Qed.

Lemma record_of_comments (data nvp : dict) :
  record_of data nvp !! lit "comments"
  = Some (join (lit "; ") (comment_segments data nvp)).
Proof. read_field. Qed.

Lemma record_of_dom (data nvp : dict) :
  dom (record_of data nvp) = list_to_set field_names.
Proof. unfold record_of. rewrite !dom_insert_L, dom_empty_L. reflexivity. Qed.

(** ** Trimmed strings *)

Lemma last_ends_clean (c d : N) (s : str) :
  negb (isspace (List.last (c :: s) d)) = ends_clean (c :: s).
Proof.
  revert c. induction s as [|x s IH]; intros c; [reflexivity|].
  change (List.last (c :: x :: s) d) with (List.last (x :: s) d).
  rewrite IH. reflexivity.
Qed.

Lemma trimmed_ends (s : str) :
  trimmed s = starts_clean s && ends_clean s.
Proof.
  destruct s as [|c s]; [reflexivity|].
  unfold trimmed. rewrite last_ends_clean. reflexivity.
Qed.

Lemma rstrip_ends_clean (s : str) : ends_clean (rstrip s) = true.
Proof.
  induction s as [|c s IH]; [reflexivity|].
  cbn [rstrip]. destruct (rstrip s) as [|x r].
  - destruct (isspace c) eqn:Hc; [reflexivity|]. cbn. by rewrite Hc.
  - exact IH.
Qed.

Lemma lstrip_starts_clean (s : str) : starts_clean (lstrip s) = true.
Proof.
  induction s as [|c s IH]; [reflexivity|].
  cbn [lstrip]. destruct (isspace c) eqn:Hc; [exact IH|]. cbn. by rewrite Hc.
Qed.

Lemma lstrip_ends_clean (s : str) :
  ends_clean s = true -> ends_clean (lstrip s) = true.
Proof.
  induction s as [|c s IH]; [reflexivity|].
  cbn [lstrip]. destruct (isspace c); [|done].
  destruct s as [|x s]; [reflexivity|]. exact IH.
Qed.

Lemma strip_trimmed (s : str) : trimmed (strip s) = true.
Proof.
  rewrite trimmed_ends. unfold strip.
  rewrite lstrip_starts_clean, lstrip_ends_clean; [reflexivity|].
  apply rstrip_ends_clean.
Qed.

Lemma starts_clean_app (a b : str) :
  a <> [] -> starts_clean (a ++ b) = starts_clean a.
Proof. destruct a; done. Qed.

Lemma ends_clean_app (a b : str) :
  b <> [] -> ends_clean (a ++ b) = ends_clean b.
Proof.
  intros Hb. induction a as [|c a IH]; [reflexivity|].
  cbn [app ends_clean]. destruct (a ++ b) eqn:E; [|exact IH].
  destruct a; [done|discriminate].
Qed.

Lemma solid_app (a sep b : str) : solid a -> solid b -> solid (a ++ sep ++ b).
Proof.
  intros (Ha & Hs & _) (Hb & _ & He). repeat split.
  - destruct a; done.
  - by rewrite starts_clean_app.
  - rewrite !ends_clean_app; [done..|]. destruct sep; done.
Qed.

Lemma solid_trimmed (s : str) : solid s -> trimmed s = true.
Proof. intros (_ & Hs & He). by rewrite trimmed_ends, Hs, He. Qed.

Lemma trimmed_solid (s : str) : s <> [] -> trimmed s = true -> solid s.
Proof.
  intros Hs Ht. rewrite trimmed_ends in Ht.
  apply andb_true_iff in Ht as [? ?]. done.
Qed.

Lemma join_solid (sep : str) (parts : list str) :
  parts <> [] -> Forall solid parts -> solid (join sep parts).
Proof.
  intros Hne Hall. induction Hall as [|p ps Hp Hps IH]; [done|].
  destruct ps as [|q ps]; [exact Hp|].
  change (join sep (p :: q :: ps)) with (p ++ sep ++ join sep (q :: ps)).
  apply solid_app; [exact Hp|]. by apply IH.
Qed.

(** Dictionaries all of whose values are trimmed. *)
Lemma record_all_trimmed (d : dict) (es : list (str * str)) :
  map_Forall (fun _ v => trimmed v = true) d ->
  Forall (fun e : str * str => trimmed e.2 = true) es ->
  map_Forall (fun _ v => trimmed v = true) (record_all d es).
Proof.
  intros Hd Hes k v. rewrite record_all_lookup.
  destruct (last_value k es) as [w|] eqn:Hl.
  - intros [= <-]. apply last_value_elem in Hl.
    by apply (proj1 (Forall_forall _ _) Hes) in Hl.
  - apply Hd.
Qed.

Lemma flat_entries_trimmed (lines : list str) :
  Forall (fun e : str * str => trimmed e.2 = true) (flat_entries lines).
Proof.
  apply Forall_forall. intros e He. unfold flat_entries in He.
  apply list_elem_of_omap in He as (line & _ & He).
  unfold flat_entry in He. destruct (cut 58 line) as [p|]; [|discriminate].
  injection He as <-. apply strip_trimmed.
Qed.

Lemma paired_entries_trimmed (lines : list str) :
  Forall (fun e : str * str => trimmed e.2 = true) (paired_entries lines).
Proof.
  apply Forall_forall. intros e He. unfold paired_entries in He.
  apply list_elem_of_fmap in He as (p & -> & _). apply strip_trimmed.
Qed.

Lemma get_default_trimmed (d : dict) (k : str) :
  map_Forall (fun _ v => trimmed v = true) d ->
  trimmed (get_default d k []) = true.
Proof.
  intros Hd. unfold get_default. destruct (d !! k) as [v|] eqn:Hk; [|reflexivity].
  exact (Hd k v Hk).
Qed.

Lemma get_default_solid (d : dict) (k : str) :
  map_Forall (fun _ v => trimmed v = true) d ->
  truthy (get_default d k []) = true -> solid (get_default d k []).
Proof.
  intros Hd Ht. apply trimmed_solid; [|by apply get_default_trimmed].
  by destruct (get_default d k []).
Qed.

Ltac lit_fact := eval_lits; first [discriminate | reflexivity].

Lemma dates_requested_trimmed (nvp : dict) :
  map_Forall (fun _ v => trimmed v = true) nvp ->
  trimmed (dates_requested_of nvp) = true.
Proof.
  intros Hd. unfold dates_requested_of.
  change (lit "") with (@nil N).
  destruct (truthy (get_default nvp (lit "Tour Requested Date") [])) eqn:H0;
    cbn [negb]; [by apply get_default_trimmed|].
  destruct (truthy (get_default nvp (lit "White House Date 1") [])) eqn:H1;
    cbn [andb]; [|by apply get_default_trimmed].
  destruct (truthy (get_default nvp (lit "White House Date 3") [])) eqn:H3;
    [|by apply get_default_trimmed].
  apply solid_trimmed, solid_app; by apply get_default_solid.
Qed.

Lemma segment_solid (label v : str) :
  label <> [] -> starts_clean label = true ->
  trimmed v = true -> Forall solid (segment label v).
Proof.
  intros Hl Hs Hv. unfold segment.
  destruct v as [|c v]; cbn [truthy]; [constructor|].
  repeat constructor.
  - destruct label; done.
  - by rewrite starts_clean_app.
  - rewrite ends_clean_app by done. rewrite trimmed_ends in Hv.
    by apply andb_true_iff in Hv as [_ ?].
Qed.

Lemma nonempty_values_solid (d : dict) (fields : list str) :
  map_Forall (fun _ v => trimmed v = true) d ->
  Forall solid (nonempty_values d fields).
Proof.
  intros Hd. apply Forall_forall. intros v Hv. unfold nonempty_values in Hv.
  apply list_elem_of_In, filter_In in Hv as [Hin Ht].
  apply list_elem_of_In, list_elem_of_fmap in Hin as (f & -> & _).
  by apply get_default_solid.
Qed.

Lemma address_segment_solid (data : dict) :
  map_Forall (fun _ v => trimmed v = true) data ->
  Forall solid (address_segment data).
Proof.
  intros Hd. unfold address_segment.
  pose proof (nonempty_values_solid data address_fields Hd) as Hall.
  destruct (nonempty_values data address_fields) as [|v vs] eqn:E;
    cbn [truthy]; [constructor|].
  repeat constructor.
  - discriminate.
  - pose proof (join_solid (lit ", ") (v :: vs) ltac:(done) Hall) as (_ & _ & He).
    rewrite ends_clean_app; [exact He|].
    by destruct (join_solid (lit ", ") (v :: vs) ltac:(done) Hall).
Qed.

Lemma comments_trimmed (data nvp : dict) :
  map_Forall (fun _ v => trimmed v = true) data ->
  map_Forall (fun _ v => trimmed v = true) nvp ->
  trimmed (join (lit "; ") (comment_segments data nvp)) = true.
Proof.
  intros Hd Hn.
  assert (Hall : Forall solid (comment_segments data nvp)).
  { unfold comment_segments.
    apply Forall_app_2; [|apply Forall_app_2; [|apply Forall_app_2]].
    - apply segment_solid; [lit_fact..|by apply get_default_trimmed].
    - apply segment_solid; [lit_fact..|by apply get_default_trimmed].
    - apply segment_solid; [lit_fact..|by apply get_default_trimmed].
    - by apply address_segment_solid. }
  destruct (comment_segments data nvp) as [|p ps] eqn:E; [reflexivity|].
  by apply solid_trimmed, join_solid.
Qed.

Lemma record_of_trimmed (data nvp : dict) :
  map_Forall (fun _ v => trimmed v = true) data ->
  map_Forall (fun _ v => trimmed v = true) nvp ->
  map_Forall (fun _ v => trimmed v = true) (record_of data nvp).
Proof.
  intros Hd Hn. unfold record_of.
  repeat (apply map_Forall_insert_2;
          [first [ apply strip_trimmed | by apply get_default_trimmed
                 | by apply dates_requested_trimmed | by apply comments_trimmed
                 | reflexivity ]|]).
  apply map_Forall_empty.
Qed.

(** ** Replacing and taking off a prefix *)

Lemma replace_from_absent (old new s : str) :
  contains old s = false -> replace_from old new 0 s = s.
Proof.
  induction s as [|c s IH]; [reflexivity|].
  cbn [contains replace_from]. intros H.
  apply orb_false_iff in H as [H1 H2]. rewrite H1, IH by exact H2. reflexivity.
Qed.

Lemma replace_from_skip (old new : str) (k : nat) (s : str) :
  replace_from old new k s = replace_from old new 0 (drop k s).
Proof.
  revert k. induction s as [|c s IH]; intros [|k]; try reflexivity.
  cbn [replace_from drop]. apply IH.
Qed.

(** Where the text after the prefix holds no further occurrence of it,
    [replace] does take off the prefix and nothing else. *)
Lemma replace_prefix_only (p s : str) :
  p <> [] -> startswith s p = true ->
  contains p (drop (length p) s) = false ->
  replace s p [] = strip_prefix p s.
Proof.
  intros Hp Hs Hc. unfold strip_prefix. rewrite Hs.
  destruct p as [|a p]; [done|]. destruct s as [|c s]; [discriminate|].
  unfold replace. cbn [replace_from]. rewrite Hs.
  cbn [length Nat.pred app drop] in *.
  rewrite replace_from_skip. by apply replace_from_absent.
Qed.

Lemma pair_name_prefix_only (l0 : str) :
  startswith l0 (lit "Name:") = true ->
  contains (lit "Name:") (drop 5 l0) = false ->
  pair_name l0 = strip (strip_prefix (lit "Name:") l0).
Proof.
  intros Hs Hc. unfold pair_name. change (lit "") with (@nil N).
  rewrite replace_prefix_only; [reflexivity|lit_fact|exact Hs|exact Hc].
Qed.

Lemma pair_value_prefix_only (l1 : str) :
  startswith l1 (lit "Value:") = true ->
  contains (lit "Value:") (drop 6 l1) = false ->
  pair_value l1 = strip (strip_prefix (lit "Value:") l1).
Proof.
  intros Hs Hc. unfold pair_value. change (lit "") with (@nil N).
  rewrite replace_prefix_only; [reflexivity|lit_fact|exact Hs|exact Hc].
Qed.

(** ** Inputs of the specification, run *)

Example extract_data_empty :
  extract_data [] =
  Ok (list_to_map ((fun k => (k, [])) <$> field_names)).
Proof. vm_compute. reflexivity. Qed.

Example dates_primary_wins :
  let raw_data :=
    lit "Name: Tour Requested Date" ++ [10%N] ++ lit "Value: 2024-05-01" ++ [10%N]
    ++ lit "Name: White House Date 1" ++ [10%N] ++ lit "Value: May 1" ++ [10%N]
    ++ lit "Name: White House Date 3" ++ [10%N] ++ lit "Value: May 3" in
  entry (extract_data raw_data) (lit "dates_requested")
  = Ok (Some (lit "2024-05-01")).
Proof. vm_compute. reflexivity. Qed.

Example dates_first_only :
  let raw_data := lit "Name: White House Date 1" ++ [10%N] ++ lit "Value: May 1" in
  entry (extract_data raw_data) (lit "dates_requested") = Ok (Some (lit "May 1")).
Proof. vm_compute. reflexivity. Qed.

Example dates_third_only :
  let raw_data := lit "Name: White House Date 3" ++ [10%N] ++ lit "Value: May 3" in
  entry (extract_data raw_data) (lit "dates_requested") = Ok (Some []).
Proof. vm_compute. reflexivity. Qed.

Example lone_name_not_paired :
  name_value_loop 3 [lit "Name: X"; lit "City: Springfield"] 0 ∅ = Ok ∅
  /\ basic_fields ∅ [lit "Name: X"; lit "City: Springfield"]
     = Ok (<[lit "Name" := lit "X"]> {[ lit "City" := lit "Springfield" ]}).
Proof. split; vm_compute; reflexivity. Qed.

Example pair_also_flat :
  let lines := [lit "Name: Channel"; lit "Value: Online"] in
  name_value_loop 3 lines 0 ∅ = Ok {[ lit "Channel" := lit "Online" ]}
  /\ basic_fields ∅ lines
     = Ok (<[lit "Name" := lit "Channel"]> {[ lit "Value" := lit "Online" ]}).
Proof. split; vm_compute; reflexivity. Qed.

(** ** The claims *)

(** C1, at an input where the code departs from it: the claim has the key
    of a matched pair be the [Name:] line with that prefix taken off the
    front once, and the value likewise, so that a later [Name:] or
    [Value:] inside the line stays.  On the two lines
    [Name: a Name: b] and [Value: c Value: d] the code stores the key
    [a  b] and the value [c  d]: [replace] has removed the inner
    occurrences too, where taking off the prefix gives [a Name: b] and
    [c Value: d]. *)
Lemma C1_replace_removes_inner_occurrences :
  let raw_data := lit "Name: a Name: b" ++ [10%N] ++ lit "Value: c Value: d" in
  lines_of raw_data = [lit "Name: a Name: b"; lit "Value: c Value: d"]
  /\ name_value_loop 3 (lines_of raw_data) 0 ∅ = Ok {[ lit "a  b" := lit "c  d" ]}
  /\ strip (strip_prefix (lit "Name:") (lit "Name: a Name: b")) = lit "a Name: b"
  /\ strip (strip_prefix (lit "Value:") (lit "Value: c Value: d")) = lit "c Value: d"
  /\ lit "a  b" <> lit "a Name: b"
  /\ lit "c  d" <> lit "c Value: d".
Proof. vm_compute. repeat split; discriminate. Qed.

(** C2: the requested dates follow the fallback chain over the paired
    fields: the field [Tour Requested Date] when it is not empty;
    otherwise [d1 - d3] when the fields [White House Date 1] and
    [White House Date 3] are both not empty, [d1] alone when only it is
    not empty, and the empty string in every other case, also when only
    [d3] is there. *)
Theorem C2_dates_requested_fallback (raw_data : str) :
  exists nvp r dates,
    name_value_loop (S (length (lines_of raw_data))) (lines_of raw_data) 0 ∅ = Ok nvp
    /\ extract_data raw_data = Ok r
    /\ r !! lit "dates_requested" = Some dates
    /\ let trd := get_default nvp (lit "Tour Requested Date") [] in
       let d1 := get_default nvp (lit "White House Date 1") [] in
       let d3 := get_default nvp (lit "White House Date 3") [] in
       (trd <> [] -> dates = trd)
       /\ (trd = [] -> d1 <> [] -> d3 <> [] -> dates = d1 ++ lit " - " ++ d3)
       /\ (trd = [] -> d1 <> [] -> d3 = [] -> dates = d1)
       /\ (trd = [] -> d1 = [] -> dates = []).
Proof.
  eexists _, _, _. split; [apply name_value_loop_run; lia|].
  split; [apply extract_data_run|]. rewrite drop_0.
  split; [apply record_of_dates|].
  unfold dates_requested_of. change (lit "") with (@nil N).
  set (nvp := record_all ∅ (paired_entries (lines_of raw_data))).
  destruct (get_default nvp (lit "Tour Requested Date") []) as [|c0 t0];
    destruct (get_default nvp (lit "White House Date 1") []) as [|c1 t1];
    destruct (get_default nvp (lit "White House Date 3") []) as [|c3 t3];
    cbn [truthy negb andb]; repeat split; intros; congruence.
Qed.

Lemma C2_dates_requested_fallback_witness :
  let raw_data :=
    lit "Name: White House Date 1" ++ [10%N] ++ lit "Value: May 1" ++ [10%N]
    ++ lit "Name: White House Date 3" ++ [10%N] ++ lit "Value: May 3" in
  exists r, extract_data raw_data = Ok r
            /\ r !! lit "dates_requested" = Some (lit "May 1 - May 3").
Proof.
  intros raw_data.
  destruct (C2_dates_requested_fallback raw_data)
    as (nvp & r & dates & Hl & Hr & Hd & _ & H2 & _ & _).
  exists r. split; [exact Hr|]. rewrite Hd. f_equal.
  rewrite name_value_loop_run in Hl by lia. injection Hl as <-.
  rewrite H2; vm_compute; first [reflexivity | discriminate].
Defined.

Lemma join_concat (sep : str) (parts : list str) :
  join sep parts =
  match parts with
  | [] => []
  | p :: ps => p ++ concat ((fun x => sep ++ x) <$> ps)
  end.
Proof.
  induction parts as [|p ps IH]; [reflexivity|].
  destruct ps as [|q ps].
  - cbn. by rewrite app_nil_r.
  - change (join sep (p :: q :: ps)) with (p ++ sep ++ join sep (q :: ps)).
    rewrite IH. cbn [fmap list_fmap concat]. by rewrite <- !app_assoc.
Qed.

(** C3: the comments are the segments [Tour: ..], [Visitors: ..],
    [Channel: ..] of the paired fields [Tours Requested],
    [Name of Visitors] and [Channel], each present exactly when its value
    is not empty, then [Address: ..] over the non-empty values of the
    flat fields [Address1], [Address2], [City], [State], [ZipCode] joined
    by a comma and a space, present exactly when there is such a value;
    the segments are joined by a semicolon and a space, and without any
    segment the comments are the empty string.  The joining is written
    out: the first piece, then every further piece after its separator. *)
Theorem C3_comments_composition (raw_data : str) :
  exists data nvp r comments,
    basic_fields ∅ (lines_of raw_data) = Ok data
    /\ name_value_loop (S (length (lines_of raw_data))) (lines_of raw_data) 0 ∅ = Ok nvp
    /\ extract_data raw_data = Ok r
    /\ r !! lit "comments" = Some comments
    /\ let present := fun v : str => match v with [] => false | _ :: _ => true end in
       let labelled := fun label v : str =>
         if present v then [label ++ v] else [] in
       let address :=
         List.filter present
           ((fun k => default [] (data !! k)) <$>
              [lit "Address1"; lit "Address2"; lit "City"; lit "State";
               lit "ZipCode"]) in
       let segments :=
         labelled (lit "Tour: ") (default [] (nvp !! lit "Tours Requested"))
         ++ labelled (lit "Visitors: ") (default [] (nvp !! lit "Name of Visitors"))
         ++ labelled (lit "Channel: ") (default [] (nvp !! lit "Channel"))
         ++ match address with
            | [] => []
            | a :: rest =>
                [lit "Address: " ++ a ++ concat ((fun v => lit ", " ++ v) <$> rest)]
            end in
       comments = match segments with
                  | [] => []
                  | s :: rest => s ++ concat ((fun x => lit "; " ++ x) <$> rest)
                  end.
Proof.
  eexists _, _, _, _. split; [apply basic_fields_entries|].
  split; [apply name_value_loop_run; lia|].
  split; [apply extract_data_run|]. rewrite drop_0.
  split; [apply record_of_comments|].
  cbv zeta. rewrite join_concat. unfold comment_segments, address_segment.
  set (data := record_all ∅ (flat_entries (lines_of raw_data))).
  set (vs := List.filter _ ((fun k => default [] (data !! k)) <$> _)).
  change (nonempty_values data address_fields) with vs.
  rewrite join_concat. destruct vs as [|a rest]; reflexivity.
Qed.

Lemma C3_comments_composition_witness :
  let raw_data :=
    lit "Name: Tours Requested" ++ [10%N] ++ lit "Value: White House Tour" ++ [10%N]
    ++ lit "Name: Channel" ++ [10%N] ++ lit "Value: Online" ++ [10%N]
    ++ lit "Address1: 123 Main St" ++ [10%N] ++ lit "City: Springfield" in
  exists r,
    extract_data raw_data = Ok r
    /\ r !! lit "comments"
       = Some (lit "Tour: White House Tour; Channel: Online; Address: 123 Main St, Springfield").
Proof.
  intros raw_data.
  destruct (C3_comments_composition raw_data)
    as (data & nvp & r & comments & Hd & Hl & Hr & Hc & Heq).
  exists r. split; [exact Hr|]. rewrite Hc. f_equal.
  rewrite basic_fields_entries in Hd. injection Hd as <-.
  rewrite name_value_loop_run in Hl by lia. injection Hl as <-.
  rewrite Heq. vm_compute. reflexivity.
Defined.

Example comments_example :
  let raw_data :=
    lit "Name: Tours Requested" ++ [10%N] ++ lit "Value: White House Tour" ++ [10%N]
    ++ lit "Name: Channel" ++ [10%N] ++ lit "Value: Online" ++ [10%N]
    ++ lit "Address1: 123 Main St" ++ [10%N] ++ lit "City: Springfield" in
  entry (extract_data raw_data) (lit "comments")
  = Ok (Some (lit "Tour: White House Tour; Channel: Online; Address: 123 Main St, Springfield")).
Proof. vm_compute. reflexivity. Qed.

(** C4: the paired fields come from one scan of the lines in order with
    a lookahead of two lines.  From any index the loop returns what the
    scan [paired_lines] of the lines from there on records; standing on
    line [i] the scan records the pair and goes on two lines further
    exactly when line [i] starts with [Name:] and there is a line [i+1]
    starting with [Value:], and goes on one line further otherwise; and a
    [Name:] line that no [Value:] line follows can be taken out of the
    input without changing the paired fields. *)
Theorem C4_paired_scan (lines : list str) :
  (forall i d extra,
     name_value_loop (S (length lines - i) + extra) lines i d
     = Ok (record_all d (paired_entries (drop i lines))))
  /\ (forall i l0, lines !! i = Some l0 ->
        paired_lines (drop i lines) =
        match lines !! (i + 1) with
        | Some l1 =>
            if startswith l0 (lit "Name:") && startswith l1 (lit "Value:")
            then (l0, l1) :: paired_lines (drop (i + 2) lines)
            else paired_lines (drop (i + 1) lines)
        | None => paired_lines (drop (i + 1) lines)
        end)
  /\ (forall before x after,
        lines = before ++ x :: after ->
        startswith x (lit "Name:") = true ->
        (forall y, head after = Some y -> startswith y (lit "Value:") = false) ->
        name_value_loop (S (length lines)) lines 0 ∅
        = name_value_loop (S (length (before ++ after))) (before ++ after) 0 ∅).
Proof.
  split; [|split].
  - intros i d extra. apply name_value_loop_run. lia.
  - intros i l0 H0. rewrite (drop_S _ _ _ H0), paired_lines_step.
    replace (S i) with (i + 1) by lia.
    destruct (lines !! (i + 1)) as [l1|] eqn:H1.
    + rewrite (drop_S _ _ _ H1). replace (S (i + 1)) with (i + 2) by lia.
      reflexivity.
    + apply lookup_ge_None in H1. rewrite drop_ge by lia. reflexivity.
  - intros before x after -> Hx Hy.
    rewrite !name_value_loop_run by lia. rewrite !drop_0.
    unfold paired_entries. rewrite paired_lines_lone_name; [reflexivity|exact Hx|].
    destruct after as [|y after]; [exact I|]. by apply Hy.
Qed.

Lemma C4_paired_scan_witness :
  name_value_loop 4 [lit "Name: X"; lit "Name: A"; lit "Value: 1"] 0 ∅
  = name_value_loop 3 [lit "Name: A"; lit "Value: 1"] 0 ∅.
Proof.
  apply (proj2 (proj2 (C4_paired_scan [lit "Name: X"; lit "Name: A"; lit "Value: 1"]))
           [] (lit "Name: X") [lit "Name: A"; lit "Value: 1"]).
  - reflexivity.
  - reflexivity.
  - intros y [= <-]. reflexivity.
Defined.

(** C5: the flat fields hold, for every line with a colon, the text
    before the first colon as key and the text after it as value, both
    trimmed; the key is kept as written, and of several lines with one
    key the last wins.  The line [Note: see http://example.com:8080]
    gives the key [Note] the value [see http://example.com:8080]. *)
Theorem C5_flat_fields :
  (forall lines : list str,
     exists data,
       basic_fields ∅ lines = Ok data
       /\ (forall k, data !! k = last_value k (flat_entries lines))
       /\ (forall k v,
             data !! k = Some v <->
             exists es1 es2,
               flat_entries lines = es1 ++ (k, v) :: es2
               /\ (forall w, (k, w) ∉ es2)))
  /\ (forall lines : list str, flat_entries lines = omap flat_entry lines)
  /\ (forall line : str, flat_entry line = None <-> 58%N ∉ line)
  /\ (forall line k v,
        flat_entry line = Some (k, v) <->
        exists a b, line = a ++ 58%N :: b /\ (58%N ∉ a)
                    /\ k = strip a /\ v = strip b)
  /\ basic_fields ∅ (lines_of (lit "Note: see http://example.com:8080"))
     = Ok {[ lit "Note" := lit "see http://example.com:8080" ]}
  /\ basic_fields ∅ [lit "Note: a"; lit "note: b"; lit "Note: c"]
     = Ok (<[lit "note" := lit "b"]> {[ lit "Note" := lit "c" ]}).
Proof.
  split; [|split; [|split; [|split; [|split]]]].
  - intros lines. eexists. split; [apply basic_fields_entries|].
    assert (Hlast : forall k,
      record_all ∅ (flat_entries lines) !! k = last_value k (flat_entries lines)).
    { intros k. rewrite record_all_lookup, lookup_empty.
      by destruct (last_value k (flat_entries lines)). }
    split; [exact Hlast|].
    intros k v. rewrite Hlast. apply last_value_Some.
  - reflexivity.
  - intros line. unfold flat_entry. rewrite fmap_None. split.
    + intros Hc Hin. apply list_elem_of_split in Hin as (a & b & ->).
      revert Hc. induction a as [|x a IH]; cbn [app cut].
      * by rewrite N.eqb_refl.
      * destruct (x =? 58)%N; [done|]. rewrite fmap_None. exact IH.
    + intros Hn. destruct (cut 58 line) as [[a b]|] eqn:Hc; [|reflexivity].
      apply cut_spec in Hc as [-> _]. exfalso. apply Hn.
      apply elem_of_app. right. left.
  - intros line k v. unfold flat_entry. split.
    + destruct (cut 58 line) as [[a b]|] eqn:Hc; [|discriminate].
      cbn. intros [= <- <-]. apply cut_spec in Hc as [-> Hn]. by exists a, b.
    + intros (a & b & -> & Hn & -> & ->).
      rewrite (proj2 (cut_spec 58 _ a b) (conj eq_refl Hn)). reflexivity.
  - vm_compute. reflexivity.
  - vm_compute. reflexivity.
Qed.

(** C6: the name is [FirstName], a space and [LastName] of the flat
    fields, trimmed, with the empty string for a missing key; without
    both keys it is the empty string. *)
Theorem C6_name_field (raw_data : str) :
  exists data r,
    basic_fields ∅ (lines_of raw_data) = Ok data
    /\ extract_data raw_data = Ok r
    /\ r !! lit "name"
       = Some (strip (default [] (data !! lit "FirstName") ++ lit " "
                      ++ default [] (data !! lit "LastName")))
    /\ (data !! lit "FirstName" = None -> data !! lit "LastName" = None ->
        r !! lit "name" = Some []).
Proof.
  eexists _, _. split; [apply basic_fields_entries|].
  split; [apply extract_data_run|].
  split; [apply record_of_name|].
  intros H1 H2. rewrite record_of_name. unfold get_default.
  rewrite H1, H2. reflexivity.
Qed.

Lemma C6_name_field_witness :
  exists data r,
    basic_fields ∅ (lines_of (lit "City: Springfield")) = Ok data
    /\ extract_data (lit "City: Springfield") = Ok r
    /\ r !! lit "name" = Some [].
Proof.
  destruct (C6_name_field (lit "City: Springfield")) as (data & r & Hd & Hr & _ & Hn).
  exists data, r. split; [exact Hd|]. split; [exact Hr|].
  pose proof Hd as Hd'. rewrite basic_fields_entries in Hd'. injection Hd' as <-.
  apply Hn; vm_compute; reflexivity.
Defined.

(** C7: for every input, the empty one too, the extraction ends, raises
    nothing and returns a dictionary of exactly the eight keys [name],
    [email], [phone], [dates_requested], [party_of], [rsvp_link],
    [unable], [comments], each bound to a string; [rsvp_link] and
    [unable] are bound to the empty string. *)
Theorem C7_total_eight_fields (raw_data : str) :
  exists r,
    extract_data raw_data = Ok r
    /\ (forall extra,
          extract_data_fuel (S (length (lines_of raw_data)) + extra) raw_data = Ok r)
    /\ dom r = list_to_set field_names
    /\ size r = 8
    /\ NoDup field_names
    /\ Forall (fun k => is_Some (r !! k)) field_names
    /\ r !! lit "rsvp_link" = Some []
    /\ r !! lit "unable" = Some [].
Proof.
  eexists. split; [apply extract_data_run|].
  split; [intros extra; apply extract_data_fuel_run; lia|].
  set (r := record_of _ _).
  assert (Hdom : dom r = list_to_set field_names) by apply record_of_dom.
  split; [exact Hdom|].
  split; [rewrite <- size_dom, Hdom; vm_compute; reflexivity|].
  split; [apply (bool_decide_unpack _); vm_compute; reflexivity|].
  split.
  - apply Forall_forall. intros k Hk. apply elem_of_dom. rewrite Hdom.
    by apply elem_of_list_to_set.
  - split; subst r; read_field.
Qed.

(** *** The run on the store *)

Lemma set_heap_id (w : world) : set_heap w (heap w) = w.
Proof. by destruct w. Qed.

Lemma set_heap_same (w : world) (l : N) (o : obj) :
  heap w !! l = Some o -> set_heap w (<[l := o]> (heap w)) = w.
Proof. intros H. rewrite insert_id by exact H. apply set_heap_id. Qed.

Lemma keeps_refl (w : world) : keeps w w.
Proof. by repeat split. Qed.

Lemma keeps_trans (w1 w2 w3 : world) : keeps w1 w2 -> keeps w2 w3 -> keeps w1 w3.
Proof.
  intros (Hp1 & Hc1 & Hh1) (Hp2 & Hc2 & Hh2). split_and!; [congruence..|].
  intros l o H. by apply Hh2, Hh1.
Qed.

Lemma keeps_insert_new (w : world) (l : N) (o : obj) :
  heap w !! l = None -> keeps w (set_heap w (<[l := o]> (heap w))).
Proof.
  intros Hl. split_and!; [reflexivity..|]. intros l0 o0 H0. cbn [heap set_heap].
  rewrite lookup_insert_ne; [exact H0|]. intros ->. congruence.
Qed.

Lemma keeps_insert_own (w0 w : world) (l : N) (o : obj) :
  heap w0 !! l = None -> keeps w0 w -> keeps w0 (set_heap w (<[l := o]> (heap w))).
Proof.
  intros Hl (Hp & Hc & Hh). split_and!; [exact Hp|exact Hc|].
  intros l0 o0 H0. cbn [heap set_heap].
  rewrite lookup_insert_ne; [by apply Hh|]. intros ->. congruence.
Qed.

Lemma new_run (o : obj) (w : world) :
  exists l,
    new o w = Done l (set_heap w (<[l := o]> (heap w)))
    /\ heap w !! l = None.
Proof.
  eexists. split; [reflexivity|]. apply not_elem_of_dom, is_fresh.
Qed.

Lemma basic_fields_st_run (l : N) (lines : list str) (d : dict) (w : world) :
  heap w !! l = Some (DictObj d) ->
  basic_fields_st l lines w =
  match basic_fields d lines with
  | Ok d' => Done tt (set_heap w (<[l := DictObj d']> (heap w)))
  | Raise e => Failed e
  | Diverge => Unfinished
  end.
Proof.
  revert d w. induction lines as [|line lines IH]; intros d w Hl.
  - cbn. by rewrite set_heap_same.
  - cbn [basic_fields_st basic_fields]. unfold sbind, basic_field_st, basic_field.
    destruct (contains (lit ":") line); cbn [bind].
    2:{ unfold ret. by apply IH. }
    destruct (length (split 58 (Some 1) line) =? 2)%nat; cbn [bind].
    2:{ unfold ret. by apply IH. }
    destruct (split 58 (Some 1) line) as [|key [|value [|x parts]]];
      try reflexivity.
    unfold dict_set. rewrite Hl. cbn [bind].
    rewrite (IH (<[strip key := strip value]> d)).
    + destruct (basic_fields _ lines); [|reflexivity..].
      unfold set_heap. cbn [heap processor clock]. by rewrite insert_insert_eq.
    + cbn [heap set_heap]. apply lookup_insert_eq.
Qed.

Lemma name_value_loop_st_run (l : N) (lines : list str) (fuel i : nat)
    (d : dict) (w : world) :
  heap w !! l = Some (DictObj d) ->
  name_value_loop_st fuel lines i l w =
  match name_value_loop fuel lines i d with
  | Ok d' => Done tt (set_heap w (<[l := DictObj d']> (heap w)))
  | Raise e => Failed e
  | Diverge => Unfinished
  end.
Proof.
  revert i d w. induction fuel as [|fuel IH]; intros i d w Hl; [reflexivity|].
  cbn [name_value_loop_st name_value_loop]. case_bool_decide.
  2:{ unfold ret. by rewrite set_heap_same. }
  unfold sbind, lift.
  destruct (is_pair_at lines i) as [[|]|e|]; cbn [bind]; try reflexivity.
  - destruct (index lines i) as [l0|e|]; cbn [bind]; try reflexivity.
    destruct (index lines (i + 1)) as [l1|e|]; cbn [bind]; try reflexivity.
    unfold dict_set. rewrite Hl.
    erewrite IH by (cbn [heap set_heap]; apply lookup_insert_eq).
    destruct (name_value_loop fuel lines (i + 2) _); [|reflexivity..].
    unfold set_heap. cbn [heap processor clock]. by rewrite insert_insert_eq.
  - by apply IH.
Qed.

Lemma dates_requested_st_run (l : N) (d : dict) (w : world) :
  heap w !! l = Some (DictObj d) ->
  dates_requested_st l w = Done (dates_requested_of d) w.
Proof.
  intros Hl. unfold dates_requested_st, dates_requested_of, sbind,
    dict_get_default, get_default.
  rewrite Hl. destruct (truthy (default (lit "") (d !! lit "Tour Requested Date")));
    cbn [negb]; [reflexivity|].
  rewrite Hl. cbv beta iota. rewrite Hl. cbv beta iota.
  destruct (truthy (default (lit "") (d !! lit "White House Date 1")));
    destruct (truthy (default (lit "") (d !! lit "White House Date 3")));
    reflexivity.
Qed.

Lemma append_segment_st_run (ld lc : N) (d : dict) (xs : list str)
    (k label : str) (w : world) :
  heap w !! ld = Some (DictObj d) ->
  heap w !! lc = Some (ListObj xs) ->
  append_segment_st ld k label lc w =
  match append_segment d k label xs with
  | Ok xs' => Done tt (set_heap w (<[lc := ListObj xs']> (heap w)))
  | Raise e => Failed e
  | Diverge => Unfinished
  end.
Proof.
  intros Hd Hc. unfold append_segment_st, append_segment, sbind, dict_get,
    dict_item, getitem, list_append.
  rewrite Hd. destruct (d !! k) as [[|c v]|] eqn:Hk; cbn [truthy_opt truthy bind].
  - unfold ret. by rewrite set_heap_same.
  - cbv beta iota. rewrite Hd, Hk. cbv beta iota. rewrite Hc. reflexivity.
  - unfold ret. by rewrite set_heap_same.
Qed.

Lemma address_loop_st_run (ld la : N) (d : dict) (fields : list str)
    (xs : list str) (w : world) :
  heap w !! ld = Some (DictObj d) ->
  heap w !! la = Some (ListObj xs) ->
  address_loop_st ld fields la w =
  match address_loop d fields xs with
  | Ok xs' => Done tt (set_heap w (<[la := ListObj xs']> (heap w)))
  | Raise e => Failed e
  | Diverge => Unfinished
  end.
Proof.
  revert xs w. induction fields as [|f fields IH]; intros xs w Hd Ha.
  - cbn. by rewrite set_heap_same.
  - cbn [address_loop_st address_loop]. unfold sbind, dict_get, dict_item,
      getitem, list_append.
    rewrite Hd. destruct (d !! f) as [[|c v]|] eqn:Hf; cbn [truthy_opt truthy bind].
    + unfold ret. by apply IH.
    + cbv beta iota. rewrite Hd, Hf. cbv beta iota. rewrite Ha. cbv beta iota.
      rewrite (IH (xs ++ [c :: v])).
      * destruct (address_loop d fields _); [|reflexivity..].
        unfold set_heap. cbn [heap processor clock]. by rewrite insert_insert_eq.
      * cbn [heap set_heap]. rewrite lookup_insert_ne; [exact Hd|].
        intros ->. congruence.
      * cbn [heap set_heap]. apply lookup_insert_eq.
    + unfold ret. by apply IH.
Qed.

Lemma lookup_set_same (w : world) (l : N) (o : obj) :
  heap (set_heap w (<[l := o]> (heap w))) !! l = Some o.
Proof. cbn [heap set_heap]. apply lookup_insert_eq. Qed.

Lemma lookup_set_other (w : world) (l l' : N) (o : obj) :
  l' <> l -> heap (set_heap w (<[l := o]> (heap w))) !! l' = heap w !! l'.
Proof. intros H. cbn [heap set_heap]. by apply lookup_insert_ne. Qed.

Lemma comments_parts_st_run (ld ln : N) (data nvp : dict) (w : world) :
  heap w !! ld = Some (DictObj data) ->
  heap w !! ln = Some (DictObj nvp) ->
  exists lc w',
    comments_parts_st ld ln w = Done lc w'
    /\ heap w !! lc = None
    /\ heap w' !! lc = Some (ListObj (comment_segments data nvp))
    /\ keeps w w'.
Proof.
  intros Hd Hn. unfold comments_parts_st, sbind.
  destruct (new_run (ListObj []) w) as (lc & -> & Hlc).
  assert (Hcd : ld <> lc) by congruence. assert (Hcn : ln <> lc) by congruence.
  set (w1 := set_heap w _).
  assert (K1 : keeps w w1) by (by apply keeps_insert_new).
  assert (C1 : heap w1 !! lc = Some (ListObj [])) by apply lookup_set_same.
  assert (N1 : heap w1 !! ln = Some (DictObj nvp))
    by (unfold w1; by rewrite lookup_set_other).
  rewrite (append_segment_st_run ln lc nvp [] _ _ w1 N1 C1), append_segment_ok.
  set (xs1 := [] ++ _). set (w2 := set_heap w1 _).
  assert (K2 : keeps w w2) by (by apply keeps_insert_own).
  assert (C2 : heap w2 !! lc = Some (ListObj xs1)) by apply lookup_set_same.
  assert (N2 : heap w2 !! ln = Some (DictObj nvp))
    by (unfold w2; by rewrite lookup_set_other).
  rewrite (append_segment_st_run ln lc nvp xs1 _ _ w2 N2 C2), append_segment_ok.
  set (xs2 := xs1 ++ _). set (w3 := set_heap w2 _).
  assert (K3 : keeps w w3) by (by apply keeps_insert_own).
  assert (C3 : heap w3 !! lc = Some (ListObj xs2)) by apply lookup_set_same.
  assert (N3 : heap w3 !! ln = Some (DictObj nvp))
    by (unfold w3; by rewrite lookup_set_other).
  rewrite (append_segment_st_run ln lc nvp xs2 _ _ w3 N3 C3), append_segment_ok.
  set (xs3 := xs2 ++ _). set (w4 := set_heap w3 _).
  assert (K4 : keeps w w4) by (by apply keeps_insert_own).
  assert (C4 : heap w4 !! lc = Some (ListObj xs3)) by apply lookup_set_same.
  assert (D4 : heap w4 !! ld = Some (DictObj data)) by (by apply K4).
  destruct (new_run (ListObj []) w4) as (la & -> & Hla).
  assert (Hac : lc <> la) by congruence. assert (Had : ld <> la) by congruence.
  assert (Hla0 : heap w !! la = None).
  { destruct (heap w !! la) as [o|] eqn:E; [|reflexivity].
    destruct K4 as (_ & _ & K4). apply K4 in E. congruence. }
  set (w5 := set_heap w4 _).
  assert (K5 : keeps w w5) by (by apply keeps_insert_own).
  assert (A5 : heap w5 !! la = Some (ListObj [])) by apply lookup_set_same.
  assert (D5 : heap w5 !! ld = Some (DictObj data))
    by (unfold w5; by rewrite lookup_set_other).
  assert (C5 : heap w5 !! lc = Some (ListObj xs3))
    by (unfold w5; by rewrite lookup_set_other).
  rewrite (address_loop_st_run ld la data address_fields [] w5 D5 A5), address_loop_ok.
  set (ap := [] ++ _). set (w6 := set_heap w5 _).
  assert (K6 : keeps w w6) by (by apply keeps_insert_own).
  assert (A6 : heap w6 !! la = Some (ListObj ap)) by apply lookup_set_same.
  assert (C6 : heap w6 !! lc = Some (ListObj xs3))
    by (unfold w6; by rewrite lookup_set_other).
  unfold list_value. rewrite A6.
  assert (Hseg : comment_segments data nvp
                 = xs3 ++ (if truthy ap then [lit "Address: " ++ join (lit ", ") ap]
                           else [])).
  { unfold comment_segments, address_segment, xs3, xs2, xs1, ap. cbn [app].
    by rewrite <- !app_assoc. }
  destruct (truthy ap) eqn:Hap.
  - unfold list_append. rewrite C6. unfold ret.
    eexists lc, _. split; [reflexivity|]. split; [exact Hlc|].
    split; [rewrite lookup_set_same, Hseg; reflexivity|].
    by apply keeps_insert_own.
  - unfold ret. eexists lc, _. split; [reflexivity|]. split; [exact Hlc|].
    split; [|exact K6]. by rewrite C6, Hseg, app_nil_r.
Qed.

Lemma keeps_none (w w' : world) (l : N) :
  keeps w w' -> heap w' !! l = None -> heap w !! l = None.
Proof.
  intros (_ & _ & K) H. destruct (heap w !! l) as [o|] eqn:E; [|reflexivity].
  apply K in E. congruence.
Qed.

(** The whole run: the record is a new object, it holds what the
    extraction on values returns, and the world is otherwise kept. *)
Lemma extract_data_st_run (fuel : nat) (raw_data : str) (w : world) :
  length (lines_of raw_data) < fuel ->
  exists l w',
    extract_data_st fuel raw_data w = Done l w'
    /\ heap w !! l = None
    /\ heap w' !! l
       = Some (DictObj (record_of (record_all ∅ (flat_entries (lines_of raw_data)))
                                  (record_all ∅ (paired_entries (lines_of raw_data)))))
    /\ keeps w w'.
Proof.
  intros Hf. unfold extract_data_st, sbind.
  set (lines := lines_of raw_data) in *.
  destruct (new_run (DictObj ∅) w) as (l1 & -> & Hl1).
  set (w1 := set_heap w _).
  assert (D1 : heap w1 !! l1 = Some (DictObj ∅)) by apply lookup_set_same.
  rewrite (basic_fields_st_run l1 lines ∅ w1 D1), basic_fields_entries.
  set (data := record_all ∅ (flat_entries lines)). set (w2 := set_heap w1 _).
  assert (K2 : keeps w w2).
  { apply keeps_insert_own; [exact Hl1|]. by apply keeps_insert_new. }
  assert (D2 : heap w2 !! l1 = Some (DictObj data)) by apply lookup_set_same.
  destruct (new_run (DictObj ∅) w2) as (l2 & -> & Hl2).
  assert (H12 : l1 <> l2) by congruence.
  pose proof (keeps_none w w2 l2 K2 Hl2) as Hl2'.
  set (w3 := set_heap w2 _).
  assert (K3 : keeps w w3) by (by apply keeps_insert_own).
  assert (N3 : heap w3 !! l2 = Some (DictObj ∅)) by apply lookup_set_same.
  rewrite (name_value_loop_st_run l2 lines fuel 0 ∅ w3 N3).
  rewrite name_value_loop_run by lia. rewrite drop_0.
  set (nvp := record_all ∅ (paired_entries lines)). set (w4 := set_heap w3 _).
  assert (K4 : keeps w w4) by (by apply keeps_insert_own).
  assert (N4 : heap w4 !! l2 = Some (DictObj nvp)) by apply lookup_set_same.
  assert (D4 : heap w4 !! l1 = Some (DictObj data)).
  { unfold w4. rewrite lookup_set_other by done.
    unfold w3. by rewrite lookup_set_other. }
  rewrite (dates_requested_st_run l2 nvp w4 N4).
  destruct (comments_parts_st_run l1 l2 data nvp w4 D4 N4)
    as (lc & w5 & -> & Hlc & C5 & K45).
  assert (D5 : heap w5 !! l1 = Some (DictObj data)) by (by apply K45).
  assert (N5 : heap w5 !! l2 = Some (DictObj nvp)) by (by apply K45).
  unfold dict_get_default, list_value.
  repeat (first [rewrite D5 | rewrite N5 | rewrite C5]; cbv beta iota).
  destruct (new_run (DictObj (record_of data nvp)) w5) as (lr & Hnew & Hlr).
  eexists lr, _. split; [exact Hnew|].
  assert (K5 : keeps w w5) by (by eapply keeps_trans).
  split; [by eapply keeps_none|].
  split; [apply lookup_set_same|].
  eapply keeps_trans; [exact K5|]. by apply keeps_insert_new.
Qed.

(** C8: the extraction is a function of the text alone.  Run in any
    world, with any processor behind [self], any time on the clock and any
    dictionaries and lists alive from earlier calls, the method returns a
    dictionary with the same content, the one the extraction on values
    gives; the dictionary is a new object, and the processor, the clock
    and every object that was alive are left as they were.  So two calls
    on one text return equal records, also when other calls came between
    them. *)
Theorem C8_deterministic_pure (raw_data : str) :
  exists r : dict,
    extract_data raw_data = Ok r
    /\ (forall w : world,
          exists l w',
            extract_data_call raw_data w = Done l w'
            /\ heap w' !! l = Some (DictObj r)
            /\ heap w !! l = None
            /\ processor w' = processor w
            /\ clock w' = clock w
            /\ (forall l0 o, heap w !! l0 = Some o -> heap w' !! l0 = Some o))
    /\ (forall w1 w2 : world,
          returned_record (extract_data_call raw_data w1) = Some r
          /\ returned_record (extract_data_call raw_data w2) = Some r)
    /\ (forall (w : world) (earlier : str),
          exists l1 w1,
            extract_data_call earlier w = Done l1 w1
            /\ returned_record (extract_data_call raw_data w1) = Some r).
Proof.
  eexists. split; [apply extract_data_run|].
  set (r := record_of _ _).
  assert (Hrun : forall w : world,
    exists l w',
      extract_data_call raw_data w = Done l w'
      /\ heap w' !! l = Some (DictObj r)
      /\ heap w !! l = None
      /\ keeps w w').
  { intros w.
    destruct (extract_data_st_run (S (length (lines_of raw_data))) raw_data w
                ltac:(lia)) as (l & w' & Hr & Hn & Hl & K).
    by exists l, w'. }
  assert (Hrec : forall w : world,
    returned_record (extract_data_call raw_data w) = Some r).
  { intros w. destruct (Hrun w) as (l & w' & -> & Hl & _).
    cbn [returned_record]. by rewrite Hl. }
  split; [|split].
  - intros w. destruct (Hrun w) as (l & w' & Hr & Hl & Hn & Hp & Hc & Hh).
    by exists l, w'.
  - intros w1 w2. by split.
  - intros w earlier.
    destruct (extract_data_st_run (S (length (lines_of earlier))) earlier w
                ltac:(lia)) as (l1 & w1 & Hr & _).
    exists l1, w1. split; [exact Hr|]. apply Hrec.
Qed.

Lemma C8_deterministic_pure_witness :
  exists r : dict,
    r !! lit "name" = Some (lit "Ann")
    /\ returned_record (extract_data_call (lit "FirstName: Ann") busy_world) = Some r
    /\ returned_record (extract_data_call (lit "FirstName: Ann") empty_world) = Some r.
Proof.
  destruct (C8_deterministic_pure (lit "FirstName: Ann")) as (r & Hr & _ & Hrec & _).
  exists r. split; [|exact (Hrec busy_world empty_world)].
  rewrite extract_data_run in Hr. injection Hr as <-.
  vm_compute. reflexivity.
Defined.

(** C9: when several matched pairs have the same key, the paired fields
    hold for it the value of the last of them in line order; the fields
    of the result drawn from the paired fields, the requested dates, the
    party size and the three segments of the comments, are computed from
    that mapping. *)
Theorem C9_paired_last_wins (raw_data : str) :
  exists data nvp r,
    basic_fields ∅ (lines_of raw_data) = Ok data
    /\ name_value_loop (S (length (lines_of raw_data))) (lines_of raw_data) 0 ∅ = Ok nvp
    /\ extract_data raw_data = Ok r
    /\ (forall k, nvp !! k = last_value k (paired_entries (lines_of raw_data)))
    /\ (forall k v,
          nvp !! k = Some v <->
          exists es1 es2,
            paired_entries (lines_of raw_data) = es1 ++ (k, v) :: es2
            /\ (forall w, (k, w) ∉ es2))
    /\ r !! lit "party_of"
       = Some (default [] (last_value (lit "Total Number of People in Party")
                                      (paired_entries (lines_of raw_data))))
    /\ r !! lit "dates_requested" = Some (dates_requested_of nvp)
    /\ r !! lit "comments" = Some (join (lit "; ") (comment_segments data nvp)).
Proof.
  eexists _, _, _. split; [apply basic_fields_entries|].
  split; [apply name_value_loop_run; lia|].
  split; [apply extract_data_run|]. rewrite drop_0.
  set (es := paired_entries (lines_of raw_data)).
  assert (Hlast : forall k, record_all ∅ es !! k = last_value k es).
  { intros k. rewrite record_all_lookup, lookup_empty.
    by destruct (last_value k es). }
  split; [exact Hlast|].
  split; [intros k v; rewrite Hlast; apply last_value_Some|].
  split; [|split; [apply record_of_dates|apply record_of_comments]].
  rewrite record_of_party. unfold get_default. rewrite Hlast. reflexivity.
Qed.

(** C10: every field of the returned dictionary is free of whitespace at
    both ends. *)
Theorem C10_fields_trimmed (raw_data : str) :
  exists r,
    extract_data raw_data = Ok r
    /\ Forall (fun k => exists v, r !! k = Some v /\ trimmed v = true) field_names.
Proof.
  eexists. split; [apply extract_data_run|].
  set (r := record_of _ _).
  assert (Ht : map_Forall (fun _ v => trimmed v = true) r).
  { apply record_of_trimmed; apply record_all_trimmed;
      first [ apply map_Forall_empty | apply flat_entries_trimmed
            | apply paired_entries_trimmed ]. }
  apply Forall_forall. intros k Hk.
  assert (Hin : k ∈ dom r).
  { unfold r. rewrite record_of_dom. by apply elem_of_list_to_set. }
  apply elem_of_dom in Hin as [v Hv]. exists v. split; [exact Hv|].
  exact (Ht k v Hv).
Qed.

(** ** The methods that call the libraries *)

Lemma row_of_first_missing (d : dict) :
  row_of d =
  match first_missing d with
  | Some k => Throw (Exn (KeyErrorC k) (repr k))
  | None => Ret (cells d)
  end.
Proof.
  unfold row_of, first_missing, cells, field_names, item.
  cbn [List.find fmap list_fmap].
  repeat match goal with
    | |- context [bool_decide (d !! ?k = None)] =>
        destruct (d !! k) eqn:?; cbn [pbind bool_decide decide_rel default];
        [rewrite bool_decide_eq_false_2 by discriminate
        |rewrite bool_decide_eq_true_2 by reflexivity; reflexivity]
    end.
  reflexivity.
Qed.

Lemma first_missing_None (d : dict) :
  first_missing d = None <-> Forall (fun k => is_Some (d !! k)) field_names.
Proof.
  unfold first_missing. split.
  - intros H. apply Forall_forall. intros k Hk.
    apply list_elem_of_In in Hk.
    pose proof (find_none _ _ H k Hk) as Hb. cbn in Hb.
    apply bool_decide_eq_false in Hb. by destruct (d !! k).
  - intros H. induction H as [|k ks Hk _ IH]; [reflexivity|].
    cbn [List.find]. rewrite bool_decide_eq_false_2; [exact IH|].
    destruct Hk as [v ->]. discriminate.
Qed.

Lemma add_to_sheet_unconnected (S : Type) (e : env S) (s : S)
    (self : TourProcessor) (d : dict) :
  service self = None \/ default [] (spreadsheet_id self) = [] ->
  run e (add_to_sheet self d) s = (inl false, []).
Proof.
  unfold add_to_sheet, run. destruct self as [[svc|] [[|c sid]|]]; cbn; intros [H|H];
    first [reflexivity | discriminate].
Qed.

Section Methods.

Context {S : Type} (e : env S).

Lemma exec_pbind {A B : Type} (p : prog A) (f : A -> prog B) (s : S) :
  exec e (pbind p f) s =
  match exec e p s with
  | (inl a, log, s') =>
      let '(res, log', s'') := exec e (f a) s' in (res, log ++ log', s'')
  | (inr x, log, s') => (inr x, log, s')
  end.
Proof.
  revert s. induction p as [a|x|X c k IH]; intros s; cbn [pbind exec].
  - by destruct (exec e (f a) s) as [[res log] s'].
  - reflexivity.
  - destruct (e X c s) as [r s']. rewrite IH.
    destruct (exec e (k r) s') as [[[a|x] log] s'']; [|reflexivity].
    by destruct (exec e (f a) s'') as [[res log'] s3].
Qed.

Lemma exec_try_except {A : Type} (p : prog A) (h : raised -> prog A) (s : S) :
  exec e (try_except p h) s =
  match exec e p s with
  | (inl a, log, s') => (inl a, log, s')
  | (inr x, log, s') =>
      let '(res, log', s'') := exec e (h x) s' in (res, log ++ log', s'')
  end.
Proof.
  revert s. induction p as [a|x|X c k IH]; intros s; cbn [try_except exec].
  - reflexivity.
  - by destruct (exec e (h x) s) as [[res log] s'].
  - destruct (e X c s) as [r s']. rewrite IH.
    destruct (exec e (k r) s') as [[[a|x] log] s'']; [reflexivity|].
    by destruct (exec e (h x) s'') as [[res log'] s3].
Qed.

Lemma exec_perform {X : Type} (c : call X) (s : S) :
  exec e (perform c) s =
  (match (e X c s).1 with
   | Returned x => inl x
   | Raised x => inr x
   end, [Event c (e X c s).1], (e X c s).2).
Proof.
  unfold perform. cbn [exec]. by destruct (e X c s) as [[x|x] s'].
Qed.

Lemma handler_answer (self : TourProcessor) (x : raised) :
  match cls x with
  | JSONDecodeErrorC => Ret (false, lit "Invalid JSON format in credentials", self)
  | HttpErrorC status =>
      if (status =? 403)%N then
        Ret (false, lit "Permission denied: Make sure you've shared the spreadsheet with the service account email", self)
      else if (status =? 404)%N then
        Ret (false, lit "Spreadsheet not found: Check your spreadsheet ID", self)
      else
        Ret (false, lit "Google Sheets API error: " ++ str_of_int status, self)
  | _ => Ret (false, lit "Authentication failed: " ++ message x, self)
  end = Ret (false, failure_message x, self).
Proof.
  unfold failure_message. destruct (cls x) as [k| |status|]; try reflexivity.
  destruct (status =? 403)%N; [reflexivity|].
  destruct (status =? 404)%N; reflexivity.
Qed.

(** The whole of a run of the authentication, by the replies. *)
Lemma authenticate_run (s : S) (self : TourProcessor) (cj sid : str) :
  let res := run e (authenticate_with_user_credentials self cj sid) s in
  (exists x, last_raised (snd res) = Some x
             /\ fst res = inl (false, failure_message x, self))
  \/ (exists d ty,
        ty <> Some (lit "service_account")
        /\ last_raised (snd res) = None
        /\ snd res = [Event (JsonLoads cj) (Returned d);
                      Event (GetType d) (Returned ty)]
        /\ fst res = inl (false,
                         lit "Invalid credentials: Must be a service account JSON file",
                         self))
  \/ (exists d c h v,
        last_raised (snd res) = None
        /\ snd res = [Event (JsonLoads cj) (Returned d);
                      Event (GetType d) (Returned (Some (lit "service_account")));
                      Event (FromServiceAccountInfo d
                               [lit "https://www.googleapis.com/auth/spreadsheets"])
                            (Returned c);
                      Event (Build (lit "sheets") (lit "v4") c) (Returned h);
                      Event (ValuesGet h sid (lit "A1:A1")) (Returned v)]
        /\ fst res = inl (true, lit "Successfully connected to Google Sheets",
                         mkTourProcessor (Some h) (Some sid))).
Proof.
  unfold authenticate_with_user_credentials, run.
  cbn [exec try_except pbind perform].
  destruct (e _ (JsonLoads cj) s) as [[d|x] s1];
    cbn [exec try_except pbind perform fst snd].
  2:{ rewrite handler_answer. left. exists x. split; reflexivity. }
  destruct (e _ (GetType d) s1) as [[ty|x] s2];
    cbn [exec try_except pbind perform fst snd].
  2:{ rewrite handler_answer. left. exists x. split; reflexivity. }
  case_bool_decide as Hty; cbn [negb exec try_except pbind perform fst snd].
  2:{ right. left. exists d, ty. split; [exact Hty|]. repeat split; reflexivity. }
  subst ty.
  destruct (e _ (FromServiceAccountInfo d _) s2) as [[c|x] s3];
    cbn [exec try_except pbind perform fst snd].
  2:{ rewrite handler_answer. left. exists x. split; reflexivity. }
  destruct (e _ (Build _ _ c) s3) as [[h|x] s4];
    cbn [exec try_except pbind perform fst snd].
  2:{ rewrite handler_answer. left. exists x. split; reflexivity. }
  destruct (e _ (ValuesGet h sid _) s4) as [[v|x] s5];
    cbn [exec try_except pbind perform fst snd].
  2:{ rewrite handler_answer. left. exists x. split; reflexivity. }
  right. right. exists d, c, h, v. repeat split; reflexivity.
Qed.

(** Lines 140-161: the calls about the header row.  The block always
    ends normally, whatever the replies. *)
Lemma header_block_exec (s : S) (svc : N) (sid : str) :
  let get := ValuesGet svc sid (lit "A1:H1") in
  let put := ValuesAppend svc sid (lit "A1:H1") (lit "RAW") headers in
  exists pre s',
    exec e (try_except
              (result <~ perform get ;;
               let values := default [] result in
               if negb (truthy values) then
                 _ <~ perform put ;; Ret tt
               else Ret tt)
              (fun _ => Ret tt)) s
    = (inl tt, pre, s')
    /\ ((exists rg,
           (e _ get s).1 = rg
           /\ (forall v, rg = Returned v -> default [] v <> [])
           /\ pre = [Event get rg])
        \/ (exists v ra,
              (e _ get s).1 = Returned v
              /\ default [] v = []
              /\ pre = [Event get (Returned v); Event put ra])).
Proof.
  intros get put. rewrite exec_try_except, exec_pbind, exec_perform.
  destruct (e _ get s) as [[v|x] s1]; cbn [fst snd].
  - destruct (default [] v) as [|row0 rows] eqn:Hv; cbn [truthy negb].
    + rewrite exec_pbind, exec_perform.
      destruct (e _ put s1) as [[[]|x] s2]; cbn [fst snd exec app].
      * eexists _, _. split; [reflexivity|]. right. by exists v, (Returned tt).
      * eexists _, _. split; [reflexivity|]. right. by exists v, (Raised x).
    + cbn [exec app]. eexists _, _. split; [reflexivity|]. left.
      eexists. split; [reflexivity|]. split; [|reflexivity].
      intros v' [= <-]. by rewrite Hv.
  - cbn [exec app]. eexists _, _. split; [reflexivity|]. left.
    eexists. split; [reflexivity|]. split; [|reflexivity]. intros v' [=].
Qed.

(** Lines 164-184: the row and its append. *)
Lemma row_block_exec (s : S) (svc : N) (sid : str) (d : dict) :
  let put := ValuesAppend svc sid (lit "A:H") (lit "RAW") (cells d) in
  exec e (row <~ row_of d ;;
          try_except
            (_ <~ perform (ValuesAppend svc sid (lit "A:H") (lit "RAW") row) ;;
             Ret true)
            (fun x => match cls x with
                      | HttpErrorC _ => Ret false
                      | _ => Throw x
                      end)) s
  = match first_missing d with
    | Some k => (inr (Exn (KeyErrorC k) (repr k)), [], s)
    | None =>
        (match (e _ put s).1 with
         | Returned _ => inl true
         | Raised x =>
             match cls x with
             | HttpErrorC _ => inl false
             | _ => inr x
             end
         end, [Event put (e _ put s).1], (e _ put s).2)
    end.
Proof.
  intros put. rewrite exec_pbind, row_of_first_missing.
  destruct (first_missing d) as [k|]; cbn [exec]; [reflexivity|].
  rewrite exec_try_except, exec_pbind, exec_perform. fold put.
  destruct (e _ put s) as [[[]|x] s1]; cbn [fst snd exec app]; [reflexivity|].
  destruct (cls x); reflexivity.
Qed.

(** The whole of a run of [add_to_sheet] on a connected processor. *)
Lemma add_to_sheet_run (s : S) (svc : N) (sid : str) (d : dict) :
  sid <> [] ->
  let res := run e (add_to_sheet (mkTourProcessor (Some svc) (Some sid)) d) s in
  let get := ValuesGet svc sid (lit "A1:H1") in
  let put := ValuesAppend svc sid (lit "A1:H1") (lit "RAW") headers in
  exists pre,
    ((exists rg,
        (e _ get s).1 = rg
        /\ (forall v, rg = Returned v -> default [] v <> [])
        /\ pre = [Event get rg])
     \/ (exists v ra,
           (e _ get s).1 = Returned v
           /\ default [] v = []
           /\ pre = [Event get (Returned v); Event put ra]))
    /\ match first_missing d with
       | Some k => res = (inr (Exn (KeyErrorC k) (repr k)), pre)
       | None =>
           exists r,
             res =
             (match r with
              | Returned _ => inl true
              | Raised x =>
                  match cls x with
                  | HttpErrorC _ => inl false
                  | _ => inr x
                  end
              end,
              pre ++ [Event (ValuesAppend svc sid (lit "A:H") (lit "RAW")
                               (cells d)) r])
       end.
Proof.
  intros Hsid res get put. subst res. unfold add_to_sheet, run.
  cbn [service spreadsheet_id].
  destruct sid as [|c0 sid0]; [done|]. cbn [truthy].
  set (sid := c0 :: sid0) in *.
  destruct (header_block_exec s svc sid) as (pre & s' & Hpre & Hcases).
  cbn [truthy] in Hpre. rewrite exec_pbind, Hpre, row_block_exec.
  exists pre. split; [exact Hcases|].
  destruct (first_missing d) as [k|]; cbn [fst].
  - by rewrite app_nil_r.
  - eexists. reflexivity.
Qed.

End Methods.

(** ** Properties of the authentication *)

(** The authentication never raises: whatever the libraries reply, it
    returns a pair of a flag and a message; when the flag is false the
    processor is as it was before, an earlier connection included, and
    when it is true the processor holds a service and the spreadsheet id
    it was given. *)
Theorem authenticate_never_raises {S : Type} (e : env S) (s : S)
    (self : TourProcessor) (credentials_json sheet_id : str) :
  exists ok msg self',
    fst (run e (authenticate_with_user_credentials self credentials_json
                  sheet_id) s)
    = inl (ok, msg, self')
    /\ (ok = false -> self' = self)
    /\ (ok = true ->
        is_Some (service self')
        /\ spreadsheet_id self' = Some sheet_id).
Proof.
  destruct (authenticate_run e s self credentials_json sheet_id)
    as [(x & _ & ->)|[(d & ty & _ & _ & _ & ->)|(d & c & h & v & _ & _ & ->)]];
    eexists _, _, _; (split; [reflexivity|]); split; intros [=]; eauto.
Qed.

(** When a call raises, the run ends there and the message is the one
    of the exception's class: the fixed texts for a JSON error and for
    the HTTP statuses 403 and 404, the status in decimal for any other
    HTTP error, and the text of the exception after
    [Authentication failed: ] for everything else. *)
Theorem authenticate_failure_message {S : Type} (e : env S) (s : S)
    (self : TourProcessor) (credentials_json sheet_id : str) (x : raised) :
  last_raised (snd (run e (authenticate_with_user_credentials self
                             credentials_json sheet_id) s)) = Some x ->
  fst (run e (authenticate_with_user_credentials self credentials_json
                sheet_id) s)
  = inl (false, failure_message x, self).
Proof.
  intros Hx.
  destruct (authenticate_run e s self credentials_json sheet_id)
    as [(x' & Hl & Hr)|[(d & ty & _ & Hl & _)|(d & c & h & v & Hl & _)]];
    rewrite Hl in Hx; [|discriminate..].
  injection Hx as <-. exact Hr.
Qed.

Lemma authenticate_failure_message_witness :
  fst (run (failing (Exn (HttpErrorC 500) (lit "server error")))
         (authenticate_with_user_credentials init (lit "{}") (lit "sheet")) tt)
  = inl (false, lit "Google Sheets API error: 500", init).
Proof.
  exact (authenticate_failure_message
           (failing (Exn (HttpErrorC 500) (lit "server error"))) tt init
           (lit "{}") (lit "sheet") (Exn (HttpErrorC 500) (lit "server error"))
           eq_refl).
Defined.

(** The authentication succeeds only along one path: the credentials
    were parsed, their type was [service_account], the credentials object
    and the service were built and the read of [A1:A1] of the given
    spreadsheet returned, in this order and with no other call; the
    processor then holds the service just built and the given id. *)
Theorem authenticate_success_calls {S : Type} (e : env S) (s : S)
    (self self' : TourProcessor) (credentials_json sheet_id msg : str) :
  fst (run e (authenticate_with_user_credentials self credentials_json
                sheet_id) s)
  = inl (true, msg, self') ->
  exists d c h v,
    snd (run e (authenticate_with_user_credentials self credentials_json
                  sheet_id) s)
    = [Event (JsonLoads credentials_json) (Returned d);
       Event (GetType d) (Returned (Some (lit "service_account")));
       Event (FromServiceAccountInfo d
                [lit "https://www.googleapis.com/auth/spreadsheets"]) (Returned c);
       Event (Build (lit "sheets") (lit "v4") c) (Returned h);
       Event (ValuesGet h sheet_id (lit "A1:A1")) (Returned v)]
    /\ self' = mkTourProcessor (Some h) (Some sheet_id)
    /\ msg = lit "Successfully connected to Google Sheets".
Proof.
  intros Hr.
  destruct (authenticate_run e s self credentials_json sheet_id)
    as [(x & _ & Hr')|[(d & ty & _ & _ & _ & Hr')|(d & c & h & v & _ & Hl & Hr')]];
    rewrite Hr' in Hr; [discriminate..|].
  injection Hr as <- <-. by exists d, c, h, v.
Qed.

Lemma authenticate_success_calls_witness :
  exists d c h v,
    snd (run (obliging (Some (lit "service_account")) None)
           (authenticate_with_user_credentials init (lit "{}") (lit "sheet")) 1%N)
    = [Event (JsonLoads (lit "{}")) (Returned d);
       Event (GetType d) (Returned (Some (lit "service_account")));
       Event (FromServiceAccountInfo d
                [lit "https://www.googleapis.com/auth/spreadsheets"]) (Returned c);
       Event (Build (lit "sheets") (lit "v4") c) (Returned h);
       Event (ValuesGet h (lit "sheet") (lit "A1:A1")) (Returned v)]
    /\ mkTourProcessor (Some 3%N) (Some (lit "sheet"))
       = mkTourProcessor (Some h) (Some (lit "sheet"))
    /\ lit "Successfully connected to Google Sheets"
       = lit "Successfully connected to Google Sheets".
Proof.
  exact (authenticate_success_calls
           (obliging (Some (lit "service_account")) None) 1%N init
           (mkTourProcessor (Some 3%N) (Some (lit "sheet")))
           (lit "{}") (lit "sheet")
           (lit "Successfully connected to Google Sheets") eq_refl).
Defined.

(** Credentials that parse but are not of the type [service_account]
    are refused after two calls: no credentials object is built, no
    service and no request to the sheet; the processor stays as it was. *)
Theorem authenticate_other_type_stops {S : Type} (e : env S) (s : S)
    (self self' : TourProcessor) (credentials_json sheet_id msg : str) :
  last_raised (snd (run e (authenticate_with_user_credentials self
                             credentials_json sheet_id) s)) = None ->
  fst (run e (authenticate_with_user_credentials self credentials_json
                sheet_id) s)
  = inl (false, msg, self') ->
  exists d ty,
    ty <> Some (lit "service_account")
    /\ snd (run e (authenticate_with_user_credentials self credentials_json
                     sheet_id) s)
       = [Event (JsonLoads credentials_json) (Returned d);
          Event (GetType d) (Returned ty)]
    /\ msg = lit "Invalid credentials: Must be a service account JSON file"
    /\ self' = self.
Proof.
  intros Hn Hr.
  destruct (authenticate_run e s self credentials_json sheet_id)
    as [(x & Hl & _)|[(d & ty & Hty & _ & Hl & Hr')|(d & c & h & v & _ & _ & Hr')]].
  - rewrite Hl in Hn. discriminate.
  - rewrite Hr' in Hr. injection Hr as <- <-. by exists d, ty.
  - rewrite Hr' in Hr. discriminate.
Qed.

Lemma authenticate_other_type_stops_witness :
  exists d ty,
    ty <> Some (lit "service_account")
    /\ snd (run (obliging (Some (lit "authorized_user")) None)
              (authenticate_with_user_credentials init (lit "{}") (lit "sheet")) 1%N)
       = [Event (JsonLoads (lit "{}")) (Returned d);
          Event (GetType d) (Returned ty)]
    /\ lit "Invalid credentials: Must be a service account JSON file"
       = lit "Invalid credentials: Must be a service account JSON file"
    /\ init = init.
Proof.
  exact (authenticate_other_type_stops
           (obliging (Some (lit "authorized_user")) None) 1%N init init
           (lit "{}") (lit "sheet")
           (lit "Invalid credentials: Must be a service account JSON file")
           eq_refl eq_refl).
Defined.

(** ** Properties of the writing to the sheet *)

Lemma appends_header_block {S : Type} (e : env S) (s : S) (svc : N) (sid : str)
    (pre : list event) :
  let get := ValuesGet svc sid (lit "A1:H1") in
  let put := ValuesAppend svc sid (lit "A1:H1") (lit "RAW") headers in
  ((exists rg,
      (e _ get s).1 = rg
      /\ (forall v, rg = Returned v -> default [] v <> [])
      /\ pre = [Event get rg])
   \/ (exists v ra,
         (e _ get s).1 = Returned v
         /\ default [] v = []
         /\ pre = [Event get (Returned v); Event put ra])) ->
  (appends pre = []
   /\ forall v, (e _ get s).1 = Returned v -> default [] v <> [])
  \/ (appends pre = [(svc, sid, lit "A1:H1", headers)]
      /\ exists v, (e _ get s).1 = Returned v /\ default [] v = []).
Proof.
  intros get put [(rg & Hg & Hne & ->)|(v & ra & Hg & Hv & ->)].
  - left. split; [reflexivity|]. intros v Hv. apply Hne. by rewrite <- Hg.
  - right. split; [reflexivity|]. by exists v.
Qed.

(** On a connected processor and a dictionary with the eight keys, the
    last call of [add_to_sheet] is the append of the one row of the eight
    values, in the order of the columns, to the range [A:H]; the method
    returns [True] when that call returns, [False] when it raises an HTTP
    error, and lets any other exception through.  Before it the header
    row may have been appended to [A1:H1], and nothing else: whatever
    fails about the header does not keep the row from being sent. *)
Theorem add_to_sheet_sends_row {S : Type} (e : env S) (s : S) (svc : N)
    (sid : str) (d : dict) :
  sid <> [] ->
  first_missing d = None ->
  let res := run e (add_to_sheet (mkTourProcessor (Some svc) (Some sid)) d) s in
  exists r,
    last (snd res)
    = Some (Event (ValuesAppend svc sid (lit "A:H") (lit "RAW") (cells d)) r)
    /\ fst res = match r with
                 | Returned _ => inl true
                 | Raised x =>
                     match cls x with
                     | HttpErrorC _ => inl false
                     | _ => inr x
                     end
                 end
    /\ (appends (snd res) = [(svc, sid, lit "A:H", cells d)]
        \/ appends (snd res) = [(svc, sid, lit "A1:H1", headers);
                                (svc, sid, lit "A:H", cells d)]).
Proof.
  intros Hsid Hd res.
  destruct (add_to_sheet_run e s svc sid d Hsid) as (pre & Hpre & Hres).
  rewrite Hd in Hres. destruct Hres as [r Hr]. fold res in Hr. rewrite Hr.
  exists r. cbn [fst snd]. split; [apply last_snoc|]. split; [reflexivity|].
  unfold appends. rewrite omap_app. fold (appends pre).
  destruct (appends_header_block e s svc sid pre Hpre) as [[-> _]|[-> _]];
    [by left|by right].
Qed.

Lemma add_to_sheet_sends_row_witness :
  exists r,
    last (snd (run (obliging None None)
                 (add_to_sheet (mkTourProcessor (Some 7%N) (Some (lit "sheet")))
                    (record_of ∅ ∅)) 1%N))
    = Some (Event (ValuesAppend 7%N (lit "sheet") (lit "A:H") (lit "RAW")
                     (cells (record_of ∅ ∅))) r).
Proof.
  destruct (add_to_sheet_sends_row (obliging None None) 1%N 7%N (lit "sheet")
              (record_of ∅ ∅) ltac:(discriminate) ltac:(vm_compute; reflexivity))
    as (r & Hr & _).
  exists r. exact Hr.
Defined.

(** The header row is appended exactly when the read of [A1:H1]
    returned and gave no rows; a read that raises is taken for a sheet
    that has its header. *)
Theorem add_to_sheet_header_iff_empty {S : Type} (e : env S) (s : S) (svc : N)
    (sid : str) (d : dict) :
  sid <> [] ->
  (svc, sid, lit "A1:H1", headers)
    ∈ appends (snd (run e (add_to_sheet (mkTourProcessor (Some svc) (Some sid)) d) s))
  <-> exists v, (e _ (ValuesGet svc sid (lit "A1:H1")) s).1 = Returned v
                /\ default [] v = [].
Proof.
  intros Hsid.
  destruct (add_to_sheet_run e s svc sid d Hsid) as (pre & Hpre & Hres).
  assert (Hlog : exists tl,
    snd (run e (add_to_sheet (mkTourProcessor (Some svc) (Some sid)) d) s) = pre ++ tl
    /\ (svc, sid, lit "A1:H1", headers) ∉ appends tl).
  { destruct (first_missing d) as [k|].
    - exists []. rewrite Hres, app_nil_r. split; [reflexivity|]. apply not_elem_of_nil.
    - destruct Hres as [r ->]. eexists. split; [reflexivity|].
      cbn. intros Hin. apply list_elem_of_singleton in Hin.
      eval_lits. discriminate. }
  destruct Hlog as (tl & -> & Htl). unfold appends in *. rewrite omap_app.
  rewrite elem_of_app. fold (appends pre).
  destruct (appends_header_block e s svc sid pre Hpre) as [[-> Hne]|[-> Hv]].
  - split.
    + intros [Hin|Hin]; [by apply not_elem_of_nil in Hin|done].
    + intros (v & Hg & Hv). by apply Hne in Hg.
  - split; [intros _; exact Hv|]. intros _. left. apply list_elem_of_singleton.
    reflexivity.
Qed.

Lemma add_to_sheet_header_iff_empty_witness :
  (7%N, lit "sheet", lit "A1:H1", headers)
    ∈ appends (snd (run (obliging None (Some []))
                      (add_to_sheet (mkTourProcessor (Some 7%N) (Some (lit "sheet")))
                         ∅) 1%N)).
Proof.
  apply (add_to_sheet_header_iff_empty (obliging None (Some [])) 1%N 7%N
           (lit "sheet") ∅ ltac:(discriminate)).
  exists (Some []). split; reflexivity.
Defined.

(** A dictionary that lacks one of the eight keys makes [add_to_sheet]
    raise the [KeyError] of the first key missing, in the order of the
    columns.  The row is not sent; the header row may have been appended
    by then. *)
Theorem add_to_sheet_missing_key {S : Type} (e : env S) (s : S) (svc : N)
    (sid : str) (d : dict) (k : str) :
  sid <> [] ->
  first_missing d = Some k ->
  let res := run e (add_to_sheet (mkTourProcessor (Some svc) (Some sid)) d) s in
  fst res = inr (Exn (KeyErrorC k) (repr k))
  /\ d !! k = None
  /\ (appends (snd res) = []
      \/ appends (snd res) = [(svc, sid, lit "A1:H1", headers)]).
Proof.
  intros Hsid Hk res.
  destruct (add_to_sheet_run e s svc sid d Hsid) as (pre & Hpre & Hres).
  rewrite Hk in Hres. fold res in Hres. rewrite Hres. cbn [fst snd].
  split; [reflexivity|]. split.
  - unfold first_missing in Hk. apply find_some in Hk as [_ Hk].
    by apply bool_decide_eq_true in Hk.
  - destruct (appends_header_block e s svc sid pre Hpre) as [[-> _]|[-> _]];
      [by left|by right].
Qed.

Lemma add_to_sheet_missing_key_witness :
  fst (run (obliging None None)
         (add_to_sheet (mkTourProcessor (Some 7%N) (Some (lit "sheet")))
            {[ lit "name" := lit "Ann" ]}) 1%N)
  = inr (Exn (KeyErrorC (lit "email")) (repr (lit "email"))).
Proof.
  exact (proj1 (add_to_sheet_missing_key (obliging None None) 1%N 7%N (lit "sheet")
                  {[ lit "name" := lit "Ann" ]} (lit "email")
                  ltac:(discriminate) ltac:(vm_compute; reflexivity))).
Defined.

(** [add_to_sheet] returns [True] only when the processor is connected,
    the dictionary has the eight keys, and the append of the row to
    [A:H] was the last call and returned. *)
Theorem add_to_sheet_true_only_if_accepted {S : Type} (e : env S) (s : S)
    (self : TourProcessor) (d : dict) :
  fst (run e (add_to_sheet self d) s) = inl true ->
  exists svc sid,
    service self = Some svc
    /\ spreadsheet_id self = Some sid
    /\ sid <> []
    /\ first_missing d = None
    /\ last (snd (run e (add_to_sheet self d) s))
       = Some (Event (ValuesAppend svc sid (lit "A:H") (lit "RAW") (cells d))
                 (Returned tt)).
Proof.
  intros Ht. destruct self as [[svc|] osid].
  2:{ rewrite add_to_sheet_unconnected in Ht by (by left). discriminate. }
  destruct osid as [[|c0 sid0]|].
  1,3: rewrite add_to_sheet_unconnected in Ht by (by right); discriminate.
  set (sid := c0 :: sid0) in *.
  destruct (add_to_sheet_run e s svc sid d ltac:(done)) as (pre & _ & Hres).
  exists svc, sid. repeat (split; [done|]).
  destruct (first_missing d) as [k|].
  - rewrite Hres in Ht. discriminate.
  - destruct Hres as [r Hr]. rewrite Hr in Ht |- *. cbn [fst snd] in *.
    split; [reflexivity|]. rewrite last_snoc.
    destruct r as [[]|x]; [reflexivity|]. destruct (cls x); discriminate.
Qed.

Lemma add_to_sheet_true_only_if_accepted_witness :
  exists svc sid,
    Some 7%N = Some svc
    /\ Some (lit "sheet") = Some sid
    /\ sid <> []
    /\ first_missing (record_of ∅ ∅) = None.
Proof.
  destruct (add_to_sheet_true_only_if_accepted (obliging None None) 1%N
              (mkTourProcessor (Some 7%N) (Some (lit "sheet"))) (record_of ∅ ∅)
              ltac:(vm_compute; reflexivity))
    as (svc & sid & H1 & H2 & H3 & H4 & _).
  by exists svc, sid.
Defined.

(** ** The methods together *)

(** A processor on which the only authentication failed makes no call
    when asked to write: [add_to_sheet] returns [False] at once. *)
Theorem failed_connection_makes_no_call {S1 S2 : Type} (e1 : env S1) (s1 : S1)
    (e2 : env S2) (s2 : S2) (credentials_json sheet_id msg : str)
    (self' : TourProcessor) (d : dict) :
  fst (run e1 (authenticate_with_user_credentials init credentials_json sheet_id) s1)
  = inl (false, msg, self') ->
  run e2 (add_to_sheet self' d) s2 = (inl false, []).
Proof.
  intros Hr.
  destruct (authenticate_run e1 s1 init credentials_json sheet_id)
    as [(x & _ & Hr')|[(d0 & ty & _ & _ & _ & Hr')|(d0 & c & h & v & _ & _ & Hr')]];
    rewrite Hr' in Hr; [| |discriminate];
    injection Hr as _ <-; apply add_to_sheet_unconnected; by left.
Qed.

Lemma failed_connection_makes_no_call_witness :
  run (obliging None None)
    (add_to_sheet init {[ lit "name" := lit "Ann" ]}) 1%N
  = (inl false, []).
Proof.
  exact (failed_connection_makes_no_call
           (failing (Exn JSONDecodeErrorC (lit "Expecting value"))) tt
           (obliging None None) 1%N (lit "not json") (lit "sheet")
           (lit "Invalid JSON format in credentials") init
           {[ lit "name" := lit "Ann" ]} eq_refl).
Defined.

(** After an authentication that succeeded for a spreadsheet id that is
    not empty, every row [add_to_sheet] asks the sheet to take goes
    through the service built by that authentication, to that spreadsheet
    and to one of the ranges [A1:H1] and [A:H]. *)
Theorem rows_go_to_connected_sheet {S1 S2 : Type} (e1 : env S1) (s1 : S1)
    (e2 : env S2) (s2 : S2) (self self' : TourProcessor)
    (credentials_json sheet_id msg : str) (d : dict) :
  sheet_id <> [] ->
  fst (run e1 (authenticate_with_user_credentials self credentials_json sheet_id) s1)
  = inl (true, msg, self') ->
  exists h,
    service self' = Some h
    /\ Forall (fun a : N * str * str * list (list str) =>
                 a.1.1.1 = h /\ a.1.1.2 = sheet_id
                 /\ (a.1.2 = lit "A1:H1" \/ a.1.2 = lit "A:H"))
         (appends (snd (run e2 (add_to_sheet self' d) s2))).
Proof.
  intros Hsid Hr.
  destruct (authenticate_run e1 s1 self credentials_json sheet_id)
    as [(x & _ & Hr')|[(d0 & ty & _ & _ & _ & Hr')|(d0 & c & h & v & _ & _ & Hr')]];
    rewrite Hr' in Hr; [discriminate..|].
  injection Hr as _ <-. exists h. split; [reflexivity|].
  destruct (add_to_sheet_run e2 s2 h sheet_id d Hsid) as (pre & Hpre & Hres).
  assert (Hp : Forall (fun a : N * str * str * list (list str) =>
                 a.1.1.1 = h /\ a.1.1.2 = sheet_id
                 /\ (a.1.2 = lit "A1:H1" \/ a.1.2 = lit "A:H")) (appends pre)).
  { destruct (appends_header_block e2 s2 h sheet_id pre Hpre) as [[-> _]|[-> _]];
      [constructor|].
    constructor; [|constructor]. cbn. split_and!; [done|done|by left]. }
  destruct (first_missing d) as [k|].
  - rewrite Hres. exact Hp.
  - destruct Hres as [r ->]. cbn [snd]. unfold appends in *. rewrite omap_app.
    apply Forall_app_2; [exact Hp|]. cbn [omap list_omap appended].
    constructor; [|constructor]. cbn. split_and!; [done|done|by right].
Qed.

Lemma rows_go_to_connected_sheet_witness :
  exists h,
    Some 3%N = Some h
    /\ Forall (fun a : N * str * str * list (list str) =>
                 a.1.1.1 = h /\ a.1.1.2 = lit "sheet"
                 /\ (a.1.2 = lit "A1:H1" \/ a.1.2 = lit "A:H"))
         (appends (snd (run (obliging None None)
                          (add_to_sheet (mkTourProcessor (Some 3%N) (Some (lit "sheet")))
                             (record_of ∅ ∅)) 1%N))).
Proof.
  exact (rows_go_to_connected_sheet
           (obliging (Some (lit "service_account")) None) 1%N
           (obliging None None) 1%N init
           (mkTourProcessor (Some 3%N) (Some (lit "sheet")))
           (lit "{}") (lit "sheet")
           (lit "Successfully connected to Google Sheets") (record_of ∅ ∅)
           ltac:(discriminate) eq_refl).
Defined.

Lemma record_of_cells (data nvp : dict) :
  cells (record_of data nvp)
  = [[strip (get_default data (lit "FirstName") [] ++ lit " "
             ++ get_default data (lit "LastName") []);
      get_default data (lit "EmailAddress") [];
      get_default data (lit "PhoneNumber") [];
      dates_requested_of nvp;
      get_default nvp (lit "Total Number of People in Party") [];
      []; [];
      join (lit "; ") (comment_segments data nvp)]].
Proof.
  unfold cells, field_names. cbn [fmap list_fmap].
  repeat f_equal; read_field.
Qed.

Lemma record_of_complete (data nvp : dict) :
  first_missing (record_of data nvp) = None.
Proof.
  apply first_missing_None, Forall_forall. intros k Hk.
  apply elem_of_dom. rewrite record_of_dom. by apply elem_of_list_to_set.
Qed.

(** What the extraction returns can always be written: on a connected
    processor [add_to_sheet] raises no [KeyError] of its own on it and
    ends with the append of one row of eight cells, all trimmed, the
    sixth and the seventh, for the RSVP link and for [Unable], empty. *)
Theorem extracted_record_is_sent {S : Type} (e : env S) (s : S) (svc : N)
    (sid raw_data : str) :
  sid <> [] ->
  exists r rep name email phone dates party comments,
    extract_data raw_data = Ok r
    /\ first_missing r = None
    /\ last (snd (run e (add_to_sheet (mkTourProcessor (Some svc) (Some sid)) r) s))
       = Some (Event (ValuesAppend svc sid (lit "A:H") (lit "RAW") (cells r)) rep)
    /\ cells r = [[name; email; phone; dates; party; []; []; comments]]
    /\ Forall (fun c => trimmed c = true)
         [name; email; phone; dates; party; comments].
Proof.
  intros Hsid. rewrite extract_data_run.
  set (data := record_all ∅ (flat_entries (lines_of raw_data))).
  set (nvp := record_all ∅ (paired_entries (lines_of raw_data))).
  assert (Hd : map_Forall (fun _ v => trimmed v = true) data).
  { apply record_all_trimmed; [apply map_Forall_empty|apply flat_entries_trimmed]. }
  assert (Hn : map_Forall (fun _ v => trimmed v = true) nvp).
  { apply record_all_trimmed; [apply map_Forall_empty|apply paired_entries_trimmed]. }
  destruct (add_to_sheet_run e s svc sid (record_of data nvp) Hsid)
    as (pre & _ & Hres).
  rewrite record_of_complete in Hres. destruct Hres as [rep Hrep].
  eexists _, rep, _, _, _, _, _, _. split; [reflexivity|].
  split; [apply record_of_complete|].
  split; [rewrite Hrep; apply last_snoc|].
  split; [apply record_of_cells|].
  repeat constructor;
    first [ apply strip_trimmed | by apply get_default_trimmed
          | by apply dates_requested_trimmed | by apply comments_trimmed ].
Qed.

Lemma extracted_record_is_sent_witness :
  exists r, extract_data (lit "FirstName: Ann") = Ok r /\ first_missing r = None.
Proof.
  destruct (extracted_record_is_sent (obliging None None) 1%N 7%N (lit "sheet")
              (lit "FirstName: Ann") ltac:(discriminate))
    as (r & rep & name & email & phone & dates & party & comments & Hr & Hm & _).
  by exists r.
Defined.

(** ** The lines of the input *)

Lemma split_nonempty (c : N) (m : option nat) (s : str) : split c m s <> [].
Proof.
  revert m. induction s as [|x s IH]; intros m; cbn [split]; [discriminate|].
  destruct ((x =? c)%N && _); [discriminate|].
  destruct (split c m s); discriminate.
Qed.

Lemma split_app_sep (c : N) (a b : str) :
  split c None (a ++ c :: b) = split c None a ++ split c None b.
Proof.
  induction a as [|x a IH]; cbn [app split fmap option_fmap option_map].
  - rewrite N.eqb_refl. reflexivity.
  - rewrite andb_true_r. destruct (x =? c)%N.
    + rewrite IH. reflexivity.
    + rewrite IH. pose proof (split_nonempty c None a) as Hne.
      destruct (split c None a); [done|reflexivity].
Qed.

Lemma split_no_sep (c : N) (s : str) : c ∉ s -> split c None s = [s].
Proof.
  induction s as [|x s IH]; [reflexivity|].
  intros Hn. apply not_elem_of_cons in Hn as [Hx Hs].
  cbn [split]. rewrite (proj2 (N.eqb_neq x c)) by congruence.
  cbn [andb]. rewrite IH by exact Hs. reflexivity.
Qed.

Lemma split_pieces (c : N) (s p : str) :
  p ∈ split c None s -> (c ∉ p) /\ forall x, x ∈ p -> x ∈ s.
Proof.
  revert p. induction s as [|x s IH]; intros p; cbn [split].
  - intros Hp. apply list_elem_of_singleton in Hp as ->.
    split; [apply not_elem_of_nil|done].
  - cbn [fmap option_fmap option_map]. rewrite andb_true_r.
    destruct (N.eqb_spec x c) as [->|Hne].
    + intros Hp. apply elem_of_cons in Hp as [->|Hp].
      * split; [apply not_elem_of_nil|]. intros y Hy. by apply not_elem_of_nil in Hy.
      * destruct (IH p Hp) as [H1 H2]. split; [exact H1|].
        intros y Hy. right. by apply H2.
    + pose proof (split_nonempty c None s) as Hs.
      destruct (split c None s) as [|q qs]; [done|].
      intros Hp. apply elem_of_cons in Hp as [->|Hp].
      * destruct (IH q ltac:(left)) as [H1 H2]. split.
        -- apply not_elem_of_cons. split; [congruence|exact H1].
        -- intros y Hy. apply elem_of_cons in Hy as [->|Hy]; [left|right; by apply H2].
      * destruct (IH p ltac:(by right)) as [H1 H2]. split; [exact H1|].
        intros y Hy. right. by apply H2.
Qed.

Lemma stripped_nonempty_app (l1 l2 : list str) :
  stripped_nonempty (l1 ++ l2) = stripped_nonempty l1 ++ stripped_nonempty l2.
Proof.
  induction l1 as [|p l1 IH]; [reflexivity|].
  cbn [app stripped_nonempty]. rewrite IH. by destruct (truthy (strip p)).
Qed.

Lemma stripped_nonempty_elem (ls : list str) (line : str) :
  line ∈ stripped_nonempty ls ->
  exists p, p ∈ ls /\ line = strip p /\ line <> [].
Proof.
  induction ls as [|p ls IH]; cbn [stripped_nonempty].
  - intros H. by apply not_elem_of_nil in H.
  - destruct (strip p) as [|c t] eqn:Hp; cbn [truthy].
    + intros H. destruct (IH H) as (q & Hq & Hl). exists q. split; [by right|done].
    + intros H. apply elem_of_cons in H as [->|H].
      * exists p. split; [left|]. by rewrite Hp.
      * destruct (IH H) as (q & Hq & Hl). exists q. split; [by right|done].
Qed.

Lemma elem_of_lstrip (s : str) (x : N) : x ∈ lstrip s -> x ∈ s.
Proof.
  induction s as [|c s IH]; cbn [lstrip]; [done|].
  destruct (isspace c); [|done]. intros H. right. by apply IH.
Qed.

Lemma elem_of_rstrip (s : str) (x : N) : x ∈ rstrip s -> x ∈ s.
Proof.
  induction s as [|c s IH]; cbn [rstrip]; [done|].
  destruct (rstrip s) as [|y r].
  - destruct (isspace c); [intros H; by apply not_elem_of_nil in H|].
    intros H. apply list_elem_of_singleton in H as ->. left.
  - intros H. apply elem_of_cons in H as [->|H]; [left|right; by apply IH].
Qed.

Lemma elem_of_strip (s : str) (x : N) : x ∈ strip s -> x ∈ s.
Proof. intros H. by apply elem_of_rstrip, elem_of_lstrip. Qed.

Lemma rstrip_blank (s : str) :
  Forall (fun c => isspace c = true) s -> rstrip s = [].
Proof.
  induction 1 as [|c s Hc _ IH]; [reflexivity|].
  cbn [rstrip]. by rewrite IH, Hc.
Qed.

Lemma lines_of_blank (raw_data : str) :
  Forall (fun c => isspace c = true) raw_data -> lines_of raw_data = [].
Proof.
  intros Hb. unfold lines_of.
  assert (Hp : Forall (fun p : str => strip p = []) (split 10 None raw_data)).
  { apply Forall_forall. intros p Hp. apply split_pieces in Hp as [_ Hp].
    unfold strip. rewrite rstrip_blank; [reflexivity|].
    apply Forall_forall. intros x Hx.
    exact (proj1 (Forall_forall _ _) Hb x (Hp x Hx)). }
  induction Hp as [|p ps Hp _ IH]; [reflexivity|].
  cbn [stripped_nonempty]. rewrite Hp. exact IH.
Qed.

(** The lines are taken piece by piece between the newlines: the lines
    of two texts joined by a newline are the lines of the first followed
    by the lines of the second, and a text without a newline gives its
    trimmed self, or no line when that is empty.  A newline at the end or
    an empty line in between thus changes nothing. *)
Theorem lines_of_structure :
  (forall a b : str, lines_of (a ++ 10%N :: b) = lines_of a ++ lines_of b)
  /\ (forall s : str, 10%N ∉ s ->
        lines_of s = if truthy (strip s) then [strip s] else [])
  /\ (forall a b : str,
        extract_data (a ++ 10%N :: 10%N :: b) = extract_data (a ++ 10%N :: b))
  /\ (forall a : str, extract_data (a ++ [10%N]) = extract_data a).
Proof.
  assert (H1 : forall a b : str, lines_of (a ++ 10%N :: b) = lines_of a ++ lines_of b).
  { intros a b. unfold lines_of. by rewrite split_app_sep, stripped_nonempty_app. }
  split; [exact H1|]. split; [|split].
  - intros s Hs. unfold lines_of. rewrite split_no_sep by exact Hs. reflexivity.
  - intros a b. rewrite !extract_data_run, !H1.
    change (10%N :: b) with ([] ++ 10%N :: b). rewrite H1. reflexivity.
  - intros a. rewrite !extract_data_run, H1. cbn [lines_of].
    change (lines_of []) with (@nil str). by rewrite app_nil_r.
Qed.

(** Every line the extraction works on is not empty, has no whitespace
    at either end and holds no newline. *)
Theorem lines_of_invariant (raw_data line : str) :
  line ∈ lines_of raw_data ->
  line <> [] /\ trimmed line = true /\ 10%N ∉ line.
Proof.
  intros Hl. apply stripped_nonempty_elem in Hl as (p & Hp & -> & Hne).
  split; [exact Hne|]. split; [apply strip_trimmed|].
  apply split_pieces in Hp as [Hp _]. intros Hin. by apply Hp, elem_of_strip.
Qed.

Lemma lines_of_invariant_witness :
  lit "City: Springfield" <> []
  /\ trimmed (lit "City: Springfield") = true
  /\ 10%N ∉ lit "City: Springfield".
Proof.
  apply (lines_of_invariant
           (lit "  FirstName: Ann " ++ 10%N :: lit "   City: Springfield  ")).
  vm_compute. right. left.
Defined.

(** An input of nothing but whitespace, blank lines included, has no
    lines, and the extraction returns the eight fields empty. *)
Theorem blank_input_gives_empty_record (raw_data : str) :
  Forall (fun c => isspace c = true) raw_data ->
  lines_of raw_data = []
  /\ extract_data raw_data = Ok (list_to_map ((fun k => (k, [])) <$> field_names)).
Proof.
  intros Hb. pose proof (lines_of_blank raw_data Hb) as Hl.
  split; [exact Hl|]. rewrite extract_data_run, Hl. vm_compute. reflexivity.
Qed.

Lemma blank_input_gives_empty_record_witness :
  extract_data [32%N; 10%N; 9%N; 13%N; 10%N; 160%N]
  = Ok (list_to_map ((fun k => (k, [])) <$> field_names)).
Proof.
  apply (blank_input_gives_empty_record [32%N; 10%N; 9%N; 13%N; 10%N; 160%N]).
  repeat constructor.
Defined.

(** ** The two mappings *)

Lemma flat_entry_parts (line k v : str) :
  flat_entry line = Some (k, v) ->
  exists a b, line = a ++ 58%N :: b /\ (58%N ∉ a) /\ k = strip a /\ v = strip b.
Proof.
  unfold flat_entry. destruct (cut 58 line) as [[a b]|] eqn:Hc; [|discriminate].
  cbn. intros [= <- <-]. apply cut_spec in Hc as [-> Hn]. by exists a, b.
Qed.

Lemma last_value_is_Some (k v : str) (es : list (str * str)) :
  (k, v) ∈ es -> is_Some (last_value k es).
Proof.
  intros Hin. destruct (last_value k es) as [w|] eqn:Hl; [by exists w|].
  by apply (last_value_None _ _ Hl v) in Hin.
Qed.

Lemma name_line_flat (l0 : str) :
  startswith l0 (lit "Name:") = true ->
  flat_entry l0 = Some (lit "Name", strip (drop 5 l0)).
Proof.
  eval_lits. intros H.
  do 5 (destruct l0 as [|? l0]; [discriminate|];
        cbn [startswith] in H; apply andb_true_iff in H as [?%N.eqb_eq H]; subst).
  reflexivity.
Qed.

Lemma value_line_flat (l1 : str) :
  startswith l1 (lit "Value:") = true ->
  flat_entry l1 = Some (lit "Value", strip (drop 6 l1)).
Proof.
  eval_lits. intros H.
  do 6 (destruct l1 as [|? l1]; [discriminate|];
        cbn [startswith] in H; apply andb_true_iff in H as [?%N.eqb_eq H]; subst).
  reflexivity.
Qed.

Lemma paired_lines_elem (lines : list str) (a b : str) :
  (a, b) ∈ paired_lines lines ->
  a ∈ lines /\ b ∈ lines
  /\ startswith a (lit "Name:") = true /\ startswith b (lit "Value:") = true.
Proof.
  remember (length lines) as n eqn:Hn. revert lines Hn.
  induction (lt_wf n) as [n _ IH]. intros [|l0 [|l1 rest]] Hn; cbn [paired_lines].
  - intros H. by apply not_elem_of_nil in H.
  - intros H. by apply not_elem_of_nil in H.
  - cbn [length] in Hn.
    destruct (startswith l0 (lit "Name:")) eqn:H0;
      [destruct (startswith l1 (lit "Value:")) eqn:H1|]; cbn [andb].
    + intros H. apply elem_of_cons in H as [[= -> ->]|H].
      * split_and!; [left|right; left|done|done].
      * destruct (IH (length rest) ltac:(lia) rest eq_refl H) as (Ha & Hb & Hs).
        split_and!; [by do 2 right|by do 2 right|apply Hs..].
    + intros H.
      destruct (IH (length (l1 :: rest)) ltac:(cbn; lia) (l1 :: rest) eq_refl H)
        as (Ha & Hb & Hs).
      split_and!; [by right|by right|apply Hs..].
    + intros H.
      destruct (IH (length (l1 :: rest)) ltac:(cbn; lia) (l1 :: rest) eq_refl H)
        as (Ha & Hb & Hs).
      split_and!; [by right|by right|apply Hs..].
Qed.

(** In the flat fields every key is trimmed and holds no colon, and
    every value is trimmed; a value may hold colons. *)
Theorem flat_fields_invariant (lines : list str) (data : dict) (k v : str) :
  basic_fields ∅ lines = Ok data ->
  data !! k = Some v ->
  trimmed k = true /\ (58%N ∉ k) /\ trimmed v = true.
Proof.
  rewrite basic_fields_entries. intros [= <-]. rewrite record_all_lookup, lookup_empty.
  destruct (last_value k (flat_entries lines)) as [w|] eqn:Hl; [|discriminate].
  intros [= <-]. apply last_value_elem in Hl. unfold flat_entries in Hl.
  apply list_elem_of_omap in Hl as (line & _ & Hl).
  apply flat_entry_parts in Hl as (a & b & -> & Hn & -> & ->).
  split_and!; [apply strip_trimmed| |apply strip_trimmed].
  intros Hin. by apply Hn, elem_of_strip.
Qed.

Lemma flat_fields_invariant_witness :
  trimmed (lit "Note") = true /\ (58%N ∉ lit "Note")
  /\ trimmed (lit "see http://example.com:8080") = true.
Proof.
  apply (flat_fields_invariant [lit "Note :  see http://example.com:8080"]
           {[ lit "Note" := lit "see http://example.com:8080" ]}).
  - vm_compute. reflexivity.
  - vm_compute. reflexivity.
Defined.

(** The two mappings are filled independently: as soon as one pair of
    lines is matched, the flat fields hold the keys [Name] and [Value],
    taken from [Name:] and [Value:] lines read as flat fields. *)
Theorem matched_pair_also_flat (lines : list str) :
  paired_lines lines <> [] ->
  exists data nvp,
    basic_fields ∅ lines = Ok data
    /\ name_value_loop (S (length lines)) lines 0 ∅ = Ok nvp
    /\ is_Some (data !! lit "Name")
    /\ is_Some (data !! lit "Value").
Proof.
  intros Hne. eexists _, _. split; [apply basic_fields_entries|].
  split; [apply name_value_loop_run; lia|].
  destruct (paired_lines lines) as [|[a b] ps] eqn:Hp; [done|].
  destruct (paired_lines_elem lines a b) as (Ha & Hb & Hsa & Hsb).
  { rewrite Hp. left. }
  rewrite !record_all_lookup, !lookup_empty. split.
  - destruct (last_value_is_Some (lit "Name") (strip (drop 5 a)) (flat_entries lines))
      as [w ->]; [|by exists w].
    unfold flat_entries. apply list_elem_of_omap. exists a. split; [exact Ha|].
    by apply name_line_flat.
  - destruct (last_value_is_Some (lit "Value") (strip (drop 6 b)) (flat_entries lines))
      as [w ->]; [|by exists w].
    unfold flat_entries. apply list_elem_of_omap. exists b. split; [exact Hb|].
    by apply value_line_flat.
Qed.

Lemma matched_pair_also_flat_witness :
  exists data nvp,
    basic_fields ∅ [lit "Name: Channel"; lit "Value: Online"] = Ok data
    /\ name_value_loop 3 [lit "Name: Channel"; lit "Value: Online"] 0 ∅ = Ok nvp
    /\ is_Some (data !! lit "Name")
    /\ is_Some (data !! lit "Value").
Proof.
  apply (matched_pair_also_flat [lit "Name: Channel"; lit "Value: Online"]).
  vm_compute. discriminate.
Defined.

(** Where the text of a matched [Name:] line and of its [Value:] line
    holds the prefix once only, at the front, the pair stored is the two
    lines without their prefixes, trimmed. *)
Theorem pair_without_inner_prefix (l0 l1 : str) :
  startswith l0 (lit "Name:") = true ->
  startswith l1 (lit "Value:") = true ->
  contains (lit "Name:") (drop 5 l0) = false ->
  contains (lit "Value:") (drop 6 l1) = false ->
  name_value_loop 3 [l0; l1] 0 ∅ = Ok {[ strip (drop 5 l0) := strip (drop 6 l1) ]}.
Proof.
  intros H0 H1 Hc0 Hc1. rewrite name_value_loop_run by (cbn; lia).
  unfold paired_entries. cbn [drop paired_lines]. rewrite H0, H1. cbn [andb fmap list_fmap].
  cbn [record_all foldl fst snd].
  rewrite pair_name_prefix_only, pair_value_prefix_only by assumption.
  unfold strip_prefix. rewrite H0, H1. reflexivity.
Qed.

Lemma pair_without_inner_prefix_witness :
  name_value_loop 3 [lit "Name: Channel"; lit "Value: Online"] 0 ∅
  = Ok {[ strip (drop 5 (lit "Name: Channel")) := strip (drop 6 (lit "Value: Online")) ]}.
Proof.
  apply (pair_without_inner_prefix (lit "Name: Channel") (lit "Value: Online"));
    vm_compute; reflexivity.
Defined.

(** ** The fields of the record *)

Lemma rstrip_id (s : str) : ends_clean s = true -> rstrip s = s.
Proof.
  induction s as [|c s IH]; [reflexivity|].
  cbn [ends_clean rstrip]. destruct s as [|x s].
  - cbn [rstrip]. by destruct (isspace c).
  - intros H. rewrite (IH H). reflexivity.
Qed.

Lemma lstrip_id (s : str) : starts_clean s = true -> lstrip s = s.
Proof. destruct s as [|c s]; [reflexivity|]. cbn. by destruct (isspace c). Qed.

Lemma strip_id (s : str) : trimmed s = true -> strip s = s.
Proof.
  rewrite trimmed_ends. intros [Hs He]%andb_true_iff.
  unfold strip. rewrite rstrip_id by exact He. by apply lstrip_id.
Qed.

Lemma rstrip_app_space (s : str) (c : N) :
  isspace c = true -> rstrip (s ++ [c]) = rstrip s.
Proof.
  intros Hc. induction s as [|x s IH]; cbn [app rstrip].
  - by rewrite Hc.
  - by rewrite IH.
Qed.

Lemma strip_app_space (s : str) (c : N) :
  isspace c = true -> strip (s ++ [c]) = strip s.
Proof. intros Hc. unfold strip. by rewrite rstrip_app_space. Qed.

Lemma strip_cons_space (s : str) (c : N) :
  isspace c = true -> strip (c :: s) = strip s.
Proof.
  intros Hc. unfold strip. cbn [rstrip]. destruct (rstrip s) as [|x r].
  - by rewrite Hc.
  - cbn [lstrip]. by rewrite Hc.
Qed.

(** The name is the first name when there is no last name, the last
    name when there is no first name, and otherwise the two with exactly
    one space between them: nothing is left of the space that joins them
    when one side is missing. *)
Theorem name_by_cases (raw_data : str) :
  exists data r name,
    basic_fields ∅ (lines_of raw_data) = Ok data
    /\ extract_data raw_data = Ok r
    /\ r !! lit "name" = Some name
    /\ let first := default [] (data !! lit "FirstName") in
       let last := default [] (data !! lit "LastName") in
       (last = [] -> name = first)
       /\ (first = [] -> name = last)
       /\ (first <> [] -> last <> [] -> name = first ++ 32%N :: last).
Proof.
  eexists _, _, _. split; [apply basic_fields_entries|].
  split; [apply extract_data_run|]. split; [apply record_of_name|].
  set (data := record_all ∅ (flat_entries (lines_of raw_data))).
  assert (Hd : map_Forall (fun _ v => trimmed v = true) data).
  { apply record_all_trimmed; [apply map_Forall_empty|apply flat_entries_trimmed]. }
  pose proof (get_default_trimmed data (lit "FirstName") Hd) as Hf.
  pose proof (get_default_trimmed data (lit "LastName") Hd) as Hl.
  unfold get_default in *. change (lit " ") with [32%N].
  generalize dependent (default [] (data !! lit "FirstName")). intros first Hf.
  generalize dependent (default [] (data !! lit "LastName")). intros last Hl.
  cbn zeta. split_and!.
  - intros ->. change ([32%N] ++ []) with [32%N].
    rewrite strip_app_space by reflexivity. by apply strip_id.
  - intros ->. change ([] ++ [32%N] ++ last) with (32%N :: last).
    rewrite strip_cons_space by reflexivity. by apply strip_id.
  - intros Hfn Hln. apply strip_id, solid_trimmed.
    apply (solid_app first [32%N] last); by apply trimmed_solid.
Qed.

Lemma name_by_cases_witness :
  exists r, extract_data (lit "FirstName:   Ann  ") = Ok r
            /\ r !! lit "name" = Some (lit "Ann").
Proof.
  destruct (name_by_cases (lit "FirstName:   Ann  "))
    as (data & r & name & Hd & Hr & Hn & H1 & _ & _).
  exists r. split; [exact Hr|]. rewrite Hn. f_equal.
  rewrite basic_fields_entries in Hd. injection Hd as <-.
  rewrite H1; vm_compute; reflexivity.
Defined.

Lemma segment_nil (label v : str) : segment label v = [] <-> v = [].
Proof. unfold segment. destruct v; cbn; split; done. Qed.

Lemma nonempty_values_nil (d : dict) (fields : list str) :
  nonempty_values d fields = [] <-> Forall (fun f => get_default d f [] = []) fields.
Proof.
  unfold nonempty_values. induction fields as [|f fields IH]; cbn [fmap list_fmap List.filter].
  - split; [constructor|reflexivity].
  - destruct (get_default d f []) as [|c v] eqn:Hf; cbn [truthy].
    + rewrite IH. split; [by constructor|]. by inversion 1.
    + split; [discriminate|]. inversion 1; congruence.
Qed.

Lemma join_nil (sep : str) (parts : list str) :
  Forall (fun p => p <> []) parts -> join sep parts = [] -> parts = [].
Proof.
  intros Hall. destruct Hall as [|p ps Hp Hps]; [reflexivity|].
  destruct ps as [|q ps]; cbn [join]; [done|]. by destruct p.
Qed.

(** The comments are empty exactly when the three paired fields
    [Tours Requested], [Name of Visitors], [Channel] and the five address
    fields are all missing or empty. *)
Theorem comments_empty_iff (raw_data : str) :
  exists data nvp r comments,
    basic_fields ∅ (lines_of raw_data) = Ok data
    /\ name_value_loop (S (length (lines_of raw_data))) (lines_of raw_data) 0 ∅ = Ok nvp
    /\ extract_data raw_data = Ok r
    /\ r !! lit "comments" = Some comments
    /\ (comments = [] <->
        Forall (fun k => default [] (nvp !! k) = [])
          [lit "Tours Requested"; lit "Name of Visitors"; lit "Channel"]
        /\ Forall (fun k => default [] (data !! k) = []) address_fields).
Proof.
  eexists _, _, _, _. split; [apply basic_fields_entries|].
  split; [apply name_value_loop_run; lia|]. rewrite drop_0.
  split; [apply extract_data_run|]. split; [apply record_of_comments|].
  set (data := record_all ∅ (flat_entries (lines_of raw_data))).
  set (nvp := record_all ∅ (paired_entries (lines_of raw_data))).
  assert (Hd : map_Forall (fun _ v => trimmed v = true) data).
  { apply record_all_trimmed; [apply map_Forall_empty|apply flat_entries_trimmed]. }
  assert (Hn : map_Forall (fun _ v => trimmed v = true) nvp).
  { apply record_all_trimmed; [apply map_Forall_empty|apply paired_entries_trimmed]. }
  assert (Hseg : comment_segments data nvp = [] <->
    Forall (fun k => default [] (nvp !! k) = [])
      [lit "Tours Requested"; lit "Name of Visitors"; lit "Channel"]
    /\ Forall (fun k => default [] (data !! k) = []) address_fields).
  { unfold comment_segments, address_segment.
    rewrite <- (nonempty_values_nil data address_fields).
    rewrite !app_nil, !segment_nil. fold (get_default nvp (lit "Tours Requested") []).
    fold (get_default nvp (lit "Name of Visitors") []).
    fold (get_default nvp (lit "Channel") []).
    destruct (nonempty_values data address_fields) as [|v vs]; cbn [truthy].
    - split.
      + intros (H1 & H2 & H3 & _). split; [|reflexivity].
        repeat constructor; assumption.
      + intros [H _]. inversion H as [|? ? H1 H']; subst.
        inversion H' as [|? ? H2 H'']; subst. inversion H'' as [|? ? H3 _]; subst.
        done.
    - split; [intros (_ & _ & _ & [=])|intros [_ [=]]]. }
  rewrite <- Hseg. split; [|intros ->; reflexivity].
  apply join_nil. apply Forall_forall. intros p Hp.
  assert (Hall : Forall solid (comment_segments data nvp)).
  { unfold comment_segments.
    apply Forall_app_2; [|apply Forall_app_2; [|apply Forall_app_2]].
    - apply segment_solid; [lit_fact..|by apply get_default_trimmed].
    - apply segment_solid; [lit_fact..|by apply get_default_trimmed].
    - apply segment_solid; [lit_fact..|by apply get_default_trimmed].
    - by apply address_segment_solid. }
  by destruct (proj1 (Forall_forall _ _) Hall p Hp).
Qed.

(** The e-mail address and the phone number are passed through as they
    are written: each is the trimmed text after the first colon of the
    last line whose key is [EmailAddress], or [PhoneNumber], and empty
    when there is no such line; their form is not checked. *)
Theorem email_and_phone_pass_through (raw_data : str) :
  exists r,
    extract_data raw_data = Ok r
    /\ r !! lit "email"
       = Some (default [] (last_value (lit "EmailAddress")
                             (flat_entries (lines_of raw_data))))
    /\ r !! lit "phone"
       = Some (default [] (last_value (lit "PhoneNumber")
                             (flat_entries (lines_of raw_data)))).
Proof.
  eexists. split; [apply extract_data_run|].
  set (es := flat_entries (lines_of raw_data)).
  assert (Hg : forall k, get_default (record_all ∅ es) k [] = default [] (last_value k es)).
  { intros k. unfold get_default. rewrite record_all_lookup, lookup_empty.
    by destruct (last_value k es). }
  split.
  - rewrite <- Hg. read_field.
  - rewrite <- Hg. read_field.
Qed.
